(** * NoteApp authentication models: a shallow embedding and its properties

    The development follows [src/authentication/models.py]: the three Django
    models [Users], [Methods] and [Tokens], the table-level operations of
    [UserManager] ([create], [login_password], [login_oath],
    [login_recovery]) and the instance-level operations of [Users] on an
    account and its methods ([delete], [deactivate], [activate],
    [modify_password], [recover], [generate_oath], [validate]).

    A table is a finite map from primary keys to rows.  An operation is a
    function from the database to a result and a database: a raised
    exception keeps every write that was done before it, as the code has
    no transaction around its writes. *)

From Stdlib Require Import Ascii String.
From stdpp Require Import gmap strings list fin_maps.

Local Open Scope string_scope.
Local Open Scope Z_scope.

(** ** Module-level constants of [models.py] *)

Definition USER_STANDARD : Z := 0.
Definition USER_ADMIN : Z := 1.
Definition METHOD_PASSWORD : Z := 0.
Definition METHOD_VALIDATION_TOKEN : Z := 1.
Definition METHOD_RECOVERY_TOKEN : Z := 2.
Definition METHOD_OATH_KEY : Z := 3.
Definition METHOD_ACTIVE : Z := 1.
Definition METHOD_INACTIVE : Z := 0.
Definition TOKEN_NEW_USER : string := "new-user".

Definition INVALID_LOGIN : string := "invalid-login".
Definition INVALID_RECOVERY : string := "invalid-recovery".
Definition TOKEN_SALT_SIZE : nat := 64.
Definition OATH_STRING_SIZE : nat := 10.
(** [datetime.timedelta(hours=5)] and [datetime.timedelta(days=30)], in seconds. *)
Definition VALIDATION_TIME : Z := 5 * 3600.
Definition TOKEN_TIME : Z := 30 * 86400.

(** ** Python values, exceptions and results *)

(** The values a keyword argument can hold, as far as the schemas tell
    them apart: a [str], or something that is not a [str]. *)
Inductive pyval : Type :=
  | PStr (s : string)
  | PInt (n : Z)
  | PNone.

(** Python truthiness, for [if not token]. *)
Definition truthy (v : pyval) : bool :=
  match v with
  | PStr s => negb (String.eqb s "")
  | PInt n => negb (n =? 0)
  | PNone => false
  end.

(** The exceptions that are not [UserError]: none of them is caught by the
    operations, except [DoesNotExist] where the code says so. *)
Inductive exn : Type :=
  | DoesNotExist
  | MultipleObjectsReturned
  | RuntimeError (msg : string)
  | KeyError (key : string)
  | ValueError
  | AttributeError.

Inductive result (A : Type) : Type :=
  | Ok (a : A)
  | UserError (errs : list string)
  | Raise (e : exn).
Arguments Ok {A} a.
Arguments UserError {A} errs.
Arguments Raise {A} e.

(** ** Case-insensitive comparison ([__iexact]) *)

Definition lower_ascii (c : ascii) : ascii :=
  let n := N_of_ascii c in
  if ((65 <=? n) && (n <=? 90))%N then ascii_of_N (n + 32) else c.

Fixpoint lower (s : string) : string :=
  match s with
  | EmptyString => EmptyString
  | String c s' => String (lower_ascii c) (lower s')
  end.

Definition iexact (a b : string) : bool := String.eqb (lower a) (lower b).

(** ** Rows of the tables *)

Module Users.
Record t : Type := mk {
  username : string;
  first_name : string;
  last_name : string;
  email : string;
  user_type : Z;
  active : bool;
  last_access : option Z;
  created : option Z;
  modified : option Z;
  validated : bool
}.

Definition set_active (b : bool) (u : t) : t :=
  mk (username u) (first_name u) (last_name u) (email u) (user_type u) b
     (last_access u) (created u) (modified u) (validated u).
Definition set_last_access (d : option Z) (u : t) : t :=
  mk (username u) (first_name u) (last_name u) (email u) (user_type u)
     (active u) d (created u) (modified u) (validated u).
Definition set_validated (b : bool) (u : t) : t :=
  mk (username u) (first_name u) (last_name u) (email u) (user_type u)
     (active u) (last_access u) (created u) (modified u) b.
Definition set_user_type (n : Z) (u : t) : t :=
  mk (username u) (first_name u) (last_name u) (email u) n (active u)
     (last_access u) (created u) (modified u) (validated u).
(** [created] is [auto_now_add], [modified] is [auto_now]. *)
Definition pre_save (add : bool) (now : Z) (u : t) : t :=
  mk (username u) (first_name u) (last_name u) (email u) (user_type u)
     (active u) (last_access u)
     (if add then Some now else created u) (Some now) (validated u).
End Users.

Module Methods.
Record t : Type := mk {
  user : positive;
  method : Z;
  password : string;
  token : string;
  step : Z;
  status : Z;
  created : option Z;
  updated : option Z;
  last_used : option Z;
  expiration : option Z
}.

(** [Methods()] followed by the assignments of [user], [method] and
    [step]; the other fields keep their defaults. *)
Definition new (u : positive) (kind stp : Z) : t :=
  mk u kind "" "" stp METHOD_ACTIVE None None None None.

Definition set_password (p : string) (m : t) : t :=
  mk (user m) (method m) p (token m) (step m) (status m) (created m)
     (updated m) (last_used m) (expiration m).
Definition set_token (k : string) (m : t) : t :=
  mk (user m) (method m) (password m) k (step m) (status m) (created m)
     (updated m) (last_used m) (expiration m).
Definition set_status (s : Z) (m : t) : t :=
  mk (user m) (method m) (password m) (token m) (step m) s (created m)
     (updated m) (last_used m) (expiration m).
Definition set_last_used (d : option Z) (m : t) : t :=
  mk (user m) (method m) (password m) (token m) (step m) (status m)
     (created m) (updated m) d (expiration m).
Definition set_expiration (d : option Z) (m : t) : t :=
  mk (user m) (method m) (password m) (token m) (step m) (status m)
     (created m) (updated m) (last_used m) d.
Definition pre_save (add : bool) (now : Z) (m : t) : t :=
  mk (user m) (method m) (password m) (token m) (step m) (status m)
     (if add then Some now else created m) (Some now) (last_used m)
     (expiration m).

(** [Methods.expired]: never expired without an expiration date. *)
Definition expired (now : Z) (self : t) : bool :=
  match expiration self with
  | None => false
  | Some e => e <? now
  end.
End Methods.

Module Tokens.
Record t : Type := mk {
  purpose : string;
  token : string;
  exhausted : bool;
  expiration : option Z;
  created : option Z
}.

Definition set_exhausted (b : bool) (k : t) : t :=
  mk (purpose k) (token k) b (expiration k) (created k).
Definition pre_save (add : bool) (now : Z) (k : t) : t :=
  mk (purpose k) (token k) (exhausted k) (expiration k)
     (if add then Some now else created k).

(** [Tokens.expired]. *)
Definition expired (now : Z) (self : t) : bool :=
  match expiration self with
  | None => false
  | Some e => e <? now
  end.
End Tokens.

Module Data.
(** Modelled from the spec: the model [meta.models.Data] is not among the
    sources; the feature-flag source of the specification maps a tag to a
    record with a [setting] and a [data] field, which is how [create] and
    [login_password] read it. *)
Record t : Type := mk {
  tag : string;
  setting : Z;
  data : string
}.
End Data.

(** ** Model instances and tables *)

(** A model instance: the row held in memory, and its primary key once it
    has been saved ([self.id]). *)
Record obj (A : Type) : Type := Obj {
  pk : option positive;
  fields : A
}.
Arguments Obj {A} pk fields.
Arguments pk {A} o.
Arguments fields {A} o.

(** What [save] does to the automatic fields of a model. *)
Class Model (A : Type) := pre_save : bool → Z → A → A.
#[global] Instance Users_model : Model Users.t := Users.pre_save.
#[global] Instance Methods_model : Model Methods.t := Methods.pre_save.
#[global] Instance Tokens_model : Model Tokens.t := Tokens.pre_save.
#[global] Instance Data_model : Model Data.t := λ _ _ d, d.

Section tables.
Context {A : Type} `{!Model A}.
Implicit Types (t : gmap positive A) (P : A → bool).

(** [objects.filter(...)] *)
Definition qs_filter P t : gmap positive A :=
  filter (λ kv, Is_true (P kv.2)) t.

(** Truth value of a queryset: it has a row. *)
Definition qs_nonempty P t : bool :=
  match map_to_list (qs_filter P t) with
  | [] => false
  | _ :: _ => true
  end.

(** [objects.get(...)]: exactly one row, or an exception. *)
Definition qs_get P t : result (obj A) :=
  match map_to_list (qs_filter P t) with
  | [] => Raise DoesNotExist
  | [(k, a)] => Ok (Obj (Some k) a)
  | _ :: _ :: _ => Raise MultipleObjectsReturned
  end.

(** [filter(...).update(...)]: no [save], so the automatic fields stay. *)
Definition qs_update P (f : A → A) t : gmap positive A :=
  (λ a, if P a then f a else a) <$> t.

(** [filter(...).delete()] *)
Definition qs_delete P t : gmap positive A :=
  filter (λ kv, ¬ Is_true (P kv.2)) t.

(** [instance.save()]: the row of the instance's key is replaced by the
    instance; an instance without a key gets one that the table does
    not use. *)
Definition save_row (now : Z) (o : obj A) t : obj A * gmap positive A :=
  let k := default (fresh (dom t)) (pk o) in
  let a := pre_save (bool_decide (t !! k = None)) now (fields o) in
  (Obj (Some k) a, <[k:=a]> t).
End tables.

(** ** The database and the operations' monad *)

Record DB : Type := mkDB {
  users : gmap positive Users.t;
  methods : gmap positive Methods.t;
  tokens : gmap positive Tokens.t;
  flags : gmap positive Data.t
}.

Definition with_users (f : gmap positive Users.t → gmap positive Users.t)
    (db : DB) : DB :=
  mkDB (f (users db)) (methods db) (tokens db) (flags db).
Definition with_methods
    (f : gmap positive Methods.t → gmap positive Methods.t) (db : DB) : DB :=
  mkDB (users db) (f (methods db)) (tokens db) (flags db).
Definition with_tokens (f : gmap positive Tokens.t → gmap positive Tokens.t)
    (db : DB) : DB :=
  mkDB (users db) (methods db) (f (tokens db)) (flags db).

(** What one call gets from outside: the clock ([datetime.now], read once
    for the call), the salt of [bcrypt.gensalt], the strings of
    [authentication.helpers.random_string], a function that is not among
    the sources and is called with a size, and the outcome of [send_mail]
    ([false]: the exception that the code catches). *)
Record Env : Type := mkEnv {
  now : Z;
  gensalt : string;
  random_string : nat → string;
  mail_sent : bool
}.

Definition M (A : Type) : Type := DB → result A * DB.

(** An exception ends the operation and keeps the writes done so far. *)
Definition bind {A B} (m : M A) (f : A → M B) : M B := λ db,
  match m db with
  | (Ok a, db') => f a db'
  | (UserError errs, db') => (UserError errs, db')
  | (Raise e, db') => (Raise e, db')
  end.

#[global] Instance M_ret : MRet M := λ A a db, (Ok a, db).
#[global] Instance M_bind : MBind M := λ A B f m, bind m f.

Notation "'let*' x ':=' m 'in' k" := (bind m (λ x, k))
  (at level 10, x name, m at level 100, k at level 200, only parsing).

Definition raise_user {A} (errs : list string) : M A :=
  λ db, (UserError errs, db).
Definition raise {A} (e : exn) : M A := λ db, (Raise e, db).
Definition lift {A} (r : result A) : M A := λ db, (r, db).
Definition gets {A} (f : DB → A) : M A := λ db, (Ok (f db), db).
Definition modify (f : DB → DB) : M unit := λ db, (Ok tt, f db).

(** [try: ... except X.DoesNotExist: user_errors.append(e); raise UserError] *)
Definition or_user_error {A} (errs : list string) (r : result A) : result A :=
  match r with
  | Raise DoesNotExist => UserError errs
  | _ => r
  end.

(** [if user_errors: raise UserError] with the collected errors. *)
Definition raise_if_any (errs : list string) : M unit :=
  match errs with
  | [] => mret tt
  | _ :: _ => raise_user errs
  end.

(** [d[key]] on a dict. *)
Definition getitem (d : gmap string string) (key : string) : M string :=
  match d !! key with
  | Some v => mret v
  | None => raise (KeyError key)
  end.

Definition save_user (now : Z) (o : obj Users.t) : M (obj Users.t) :=
  λ db, let '(o', t) := save_row now o (users db) in
        (Ok o', with_users (λ _, t) db).
Definition save_method (now : Z) (o : obj Methods.t) : M (obj Methods.t) :=
  λ db, let '(o', t) := save_row now o (methods db) in
        (Ok o', with_methods (λ _, t) db).
Definition save_token (now : Z) (o : obj Tokens.t) : M (obj Tokens.t) :=
  λ db, let '(o', t) := save_row now o (tokens db) in
        (Ok o', with_tokens (λ _, t) db).

(** [tag=...] in a filter on [Data]. *)
Definition has_tag (tag : string) (d : Data.t) : bool :=
  String.eqb (Data.tag d) tag.

Definition get_flag (P : Data.t → bool) : M (obj Data.t) :=
  λ db, (qs_get P (flags db), db).
Definition get_user (P : Users.t → bool) : M (obj Users.t) :=
  λ db, (qs_get P (users db), db).
Definition get_method (P : Methods.t → bool) : M (obj Methods.t) :=
  λ db, (qs_get P (methods db), db).
Definition get_token (P : Tokens.t → bool) : M (obj Tokens.t) :=
  λ db, (qs_get P (tokens db), db).
Definition get_user_or (errs : list string) (P : Users.t → bool)
    : M (obj Users.t) :=
  λ db, (or_user_error errs (qs_get P (users db)), db).
Definition get_method_or (errs : list string) (P : Methods.t → bool)
    : M (obj Methods.t) :=
  λ db, (or_user_error errs (qs_get P (methods db)), db).
Definition get_token_or (errs : list string) (P : Tokens.t → bool)
    : M (obj Tokens.t) :=
  λ db, (or_user_error errs (qs_get P (tokens db)), db).

(** [user=user_object] in a filter on [Methods]: the foreign key is the
    instance's primary key. *)
Definition owned_by (o : obj Users.t) (m : Methods.t) : bool :=
  bool_decide (pk o = Some (Methods.user m)).

(** [method_object.user = user_object]: the foreign key is the primary
    key of the instance, and an instance that was never saved has none to
    store. *)
Definition user_key (o : obj Users.t) : M positive :=
  match pk o with
  | Some k => mret k
  | None => raise ValueError
  end.

(** ** Schemas (voluptuous) *)

(** One entry of a schema dict: [Required(key, required)] or a plain
    [key], mapped to [All(str, check, msg=msg)]. *)
Record field : Type := Field {
  key : string;
  required : option string;
  check : string → bool;
  msg : string
}.

Definition lookup_field (sch : list field) (k : string) : option field :=
  List.find (λ f, String.eqb (key f) k) sch.

Definition check_value (f : field) (v : pyval) : bool :=
  match v with
  | PStr s => check f s
  | _ => false
  end.

Definition value_errors (sch : list field) (kv : string * pyval)
    : list string :=
  match lookup_field sch kv.1 with
  | None => ["extra keys not allowed"]
  | Some f => if check_value f kv.2 then [] else [msg f]
  end.

Definition missing_errors (data : gmap string pyval) (f : field)
    : list string :=
  match required f, data !! key f with
  | Some m, None => [m]
  | _, _ => []
  end.

(** Modelled from the spec: [validators.list_errors] is not among the
    sources; validation collects all field violations, one message for
    each, before failing. *)
Definition list_errors (sch : list field) (data : gmap string pyval)
    : list string :=
  (map_to_list data ≫= value_errors sch) ++ (sch ≫= missing_errors data).

Definition str_of (v : pyval) : option string :=
  match v with
  | PStr s => Some s
  | _ => None
  end.

(** [validated = schema(user_info)], or [UserError] with the listed
    errors on [MultipleInvalid]. *)
Definition run_schema (sch : list field) (data : gmap string pyval)
    : result (gmap string string) :=
  match list_errors sch data with
  | [] => Ok (omap str_of data)
  | errs => UserError errs
  end.

(** ** A small database, for the examples

    The library functions are replaced by functions that can be run: a
    pattern that accepts every string, a password hash that ignores the
    salt, so that hashing a password with a stored hash as the salt gives
    the stored hash back, as bcrypt does, and a code that depends on the
    secret and on the half-minute of the clock. *)

Module Ex.

Definition any (_ : string) : bool := true.
Definition hashpw (password salt : string) : string := "bcrypt:" +:+ password.
Definition sha1_hexdigest (s : string) : string := "sha1:" +:+ s.
Definition b32encode (s : string) : string := "b32:" +:+ s.
Fixpoint checksum (s : string) : Z :=
  match s with
  | EmptyString => 0
  | String c s' => Z.of_N (N_of_ascii c) + 31 * checksum s'
  end.
Definition get_totp (secret : string) (clock : Z) : Z :=
  (checksum secret + clock / 30) mod 1000000.
Definition strip (s : string) : string := s.

Definition bob : Users.t :=
  Users.mk "Bob" "" "" "bob@example.org" USER_STANDARD true None (Some 1)
           (Some 1) false.
Definition eve : Users.t :=
  Users.mk "eve" "" "" "eve@example.org" USER_STANDARD false None (Some 2)
           (Some 2) false.

Definition bob_password : Methods.t :=
  Methods.mk 1 METHOD_PASSWORD "bcrypt:secret" "" 1 METHOD_ACTIVE (Some 1)
             (Some 1) None None.
(** A recovery token of Bob that expired at time 50. *)
Definition bob_recovery : Methods.t :=
  Methods.mk 1 METHOD_RECOVERY_TOKEN "" "abc123" 0 METHOD_ACTIVE (Some 3)
             (Some 3) None (Some 50).
Definition bob_validation : Methods.t :=
  Methods.mk 1 METHOD_VALIDATION_TOKEN "" "val456" 0 METHOD_ACTIVE (Some 1)
             (Some 1) None None.

Definition invite : Tokens.t :=
  Tokens.mk TOKEN_NEW_USER "invite" false None (Some 1).
(** An invitation that was used, and that expired at time 10. *)
Definition stale : Tokens.t :=
  Tokens.mk TOKEN_NEW_USER "stale" true (Some 10) (Some 1).

(** User creation asks for a token, and logins are enabled. *)
Definition db : DB :=
  mkDB {[ 1%positive := bob; 2%positive := eve ]}
       {[ 1%positive := bob_password; 2%positive := bob_recovery;
          3%positive := bob_validation ]}
       {[ 1%positive := invite; 2%positive := stale ]}
       {[ 1%positive := Data.mk "new-users" 0 "token";
          2%positive := Data.mk "user-login" 1 "" ]}.

(** The same with user creation disabled. *)
Definition db_empty : DB := mkDB ∅ ∅ ∅ ∅.

Definition db_closed : DB :=
  mkDB (users db) (methods db) (tokens db)
       {[ 1%positive := Data.mk "new-users" 0 "";
          2%positive := Data.mk "user-login" 1 "" ]}.

Definition env : Env := mkEnv 100 "salt" (λ _, "AAAAAAAAAA") true.
Definition env_no_mail : Env := mkEnv 100 "salt" (λ _, "AAAAAAAAAA") false.
Definition env_later : Env := mkEnv 200 "pepper" (λ _, "BBBBBBBBBB") true.

Definition bob_self : obj Users.t := Obj (Some 1%positive) bob.

Definition login (username password : string) : gmap string pyval :=
  {[ "username" := PStr username; "password" := PStr password ]}.
Definition recovery (username token : string) : gmap string pyval :=
  {[ "username" := PStr username; "token" := PStr token ]}.
Definition registration (username email password token : string)
    : gmap string pyval :=
  {[ "username" := PStr username; "email" := PStr email;
     "password" := PStr password; "token" := PStr token ]}.

End Ex.

(** ** The operations *)

Section auth.

(** The patterns and the password rule of [errors.validators], which is
    not among the sources, and the library functions the operations call:
    [bcrypt.hashpw], [hashlib.sha1(...).hexdigest()], [base64.b32encode],
    [onetimepass.get_totp] (which reads the clock) and [bytes.strip]. *)
Variables VALID_USERNAME_REGEX VALID_NAME_REGEX VALID_EMAIL_REGEX
  VALID_TOKEN_REGEX Password : string → bool.
Variable hashpw : string → string → string.
Variable sha1_hexdigest : string → string.
Variable b32encode : string → string.
Variable get_totp : string → Z → Z.
Variable strip : string → string.

Definition str_any (_ : string) : bool := true.

(** *** [UserManager.create] *)

Definition create_schema (token_required : bool) : list field :=
  [ Field "username" (Some "username-required") VALID_USERNAME_REGEX
      "invalid-username";
    Field "first_name" None VALID_NAME_REGEX "invalid-first-name";
    Field "last_name" None VALID_NAME_REGEX "invalid-last-name";
    Field "email" (Some "email-required") VALID_EMAIL_REGEX "invalid-email";
    Field "password" (Some "password-required") Password "invalid-password" ]
  ++ (if token_required
      then [ Field "token" (Some "token-required") VALID_TOKEN_REGEX
               "invalid-token" ]
      else []).

(** The row that [self.get_queryset().create] makes from the keyword
    arguments [validated]: the fields that are not given take the defaults
    of the model. *)
Definition new_user (validated : gmap string string) : Users.t :=
  Users.mk (default "" (validated !! "username"))
           (default "" (validated !! "first_name"))
           (default "" (validated !! "last_name"))
           (default "" (validated !! "email"))
           USER_STANDARD true None None None false.

Definition is_new_user_token (value : string) (k : Tokens.t) : bool :=
  String.eqb (Tokens.purpose k) TOKEN_NEW_USER
  && String.eqb (Tokens.token k) value.

(** The check of the token, when one is required: the token object with
    [exhausted] set, not yet saved. *)
Definition check_token (env : Env) (validated : gmap string string)
    : M (obj Tokens.t) :=
  let* value := getitem validated "token" in
  let* token_object := get_token_or ["no-such-token"] (is_new_user_token value) in
  raise_if_any
    ((if Tokens.exhausted (fields token_object)
      then ["token-exhausted"] else [])
     ++ (if Tokens.expired (now env) (fields token_object)
         then ["token-expired"] else []));;
  mret (Obj (pk token_object)
            (Tokens.set_exhausted true (fields token_object))).

Definition create (env : Env) (user_info : gmap string pyval)
    : M (obj Users.t) :=
  let* new_users := get_flag (has_tag "new-users") in
  let* token_required :=
    (if Data.setting (fields new_users) =? 0
     then if String.eqb (Data.data (fields new_users)) "token"
          then mret true
          else raise_user ["creation-disabled"]
     else mret false : M bool) in
  let* validated := lift (run_schema (create_schema token_required) user_info) in
  let* username := getitem validated "username" in
  let* current_user :=
    gets (λ db, qs_nonempty (λ u, iexact (Users.username u) username)
                            (users db)) in
  let* email := getitem validated "email" in
  let* current_email :=
    gets (λ db, qs_nonempty (λ u, iexact (Users.email u) email) (users db)) in
  raise_if_any ((if current_user then ["user-exists"] else [])
                ++ (if current_email then ["email-exists"] else []));;
  let* token_object :=
    (if token_required
     then let* token_object := check_token env validated in
          mret (Some token_object)
     else mret None : M (option (obj Tokens.t))) in
  let validated :=
    if token_required then delete "token" validated else validated in
  let* password := getitem validated "password" in
  let encrypted_password := hashpw password (gensalt env) in
  let validated := delete "password" validated in
  let random_salt := random_string env TOKEN_SALT_SIZE in
  let* email := getitem validated "email" in
  let token := sha1_hexdigest (email +:+ random_salt) in
  match token_object with
  | Some token_object => save_token (now env) token_object;; mret tt
  | None => mret tt
  end;;
  let* user_object := save_user (now env) (Obj None (new_user validated)) in
  let* uid := user_key user_object in
  save_method (now env)
    (Obj None (Methods.set_password encrypted_password
                 (Methods.new uid METHOD_PASSWORD 1)));;
  save_method (now env)
    (Obj None (Methods.set_token token
                 (Methods.new uid METHOD_VALIDATION_TOKEN 0)));;
  if mail_sent env
  then mret user_object
  else raise_user ["validation-email-failure"].

(** *** [UserManager.login_password] *)

Definition login_schema : list field :=
  [ Field "username" (Some "username-required") str_any "invalid-username";
    Field "password" (Some "password-required") str_any "invalid-password" ].

Definition is_password_method (o : obj Users.t) (m : Methods.t) : bool :=
  owned_by o m && (Methods.method m =? METHOD_PASSWORD)
  && (Methods.step m =? 1) && (Methods.status m =? METHOD_ACTIVE).

Definition login_password (env : Env) (update_access : bool)
    (user_info : gmap string pyval) : M (obj Users.t) :=
  let* user_login := get_flag (has_tag "user-login") in
  if Data.setting (fields user_login) =? 0
  then raise_user ["login-disabled"]
  else
  let* validated := lift (run_schema login_schema user_info) in
  let* username := getitem validated "username" in
  let* user_object :=
    get_user_or [INVALID_LOGIN] (λ u, iexact (Users.username u) username) in
  if negb (Users.active (fields user_object))
  then raise_user ["user-inactive"]
  else
  let* method_object :=
    get_method_or [INVALID_LOGIN] (is_password_method user_object) in
  let user_password := Methods.password (fields method_object) in
  let* password := getitem validated "password" in
  let test_password := hashpw password user_password in
  if negb (String.eqb test_password user_password)
  then raise_user [INVALID_LOGIN]
  else
  save_method (now env)
    (Obj (pk method_object)
         (Methods.set_last_used (Some (now env)) (fields method_object)));;
  if update_access
  then save_user (now env)
         (Obj (pk user_object)
              (Users.set_last_access (Some (now env)) (fields user_object)))
  else mret user_object.

(** *** [UserManager.login_oath] *)

Definition is_oath_method (o : obj Users.t) (m : Methods.t) : bool :=
  owned_by o m && (Methods.method m =? METHOD_OATH_KEY)
  && (Methods.step m =? 2) && (Methods.status m =? METHOD_ACTIVE).

(** [user_current_token != token], where the current token is an [int]. *)
Definition same_code (code : Z) (token : pyval) : bool :=
  match token with
  | PInt n => code =? n
  | _ => false
  end.

Definition login_oath (env : Env) (token : pyval)
    (user_info : gmap string pyval) : M (obj Users.t) :=
  let* user_object := login_password env false user_info in
  let* method_object :=
    get_method_or [INVALID_LOGIN] (is_oath_method user_object) in
  let user_current_token :=
    get_totp (Methods.token (fields method_object)) (now env) in
  if negb (same_code user_current_token token)
  then raise_user [INVALID_LOGIN]
  else
  save_method (now env)
    (Obj (pk method_object)
         (Methods.set_last_used (Some (now env)) (fields method_object)));;
  save_user (now env)
    (Obj (pk user_object)
         (Users.set_last_access (Some (now env)) (fields user_object))).

(** *** [UserManager.login_recovery] *)

Definition recovery_schema : list field :=
  [ Field "username" (Some "username-required") str_any "invalid-username";
    Field "token" (Some "token-required") VALID_TOKEN_REGEX "invalid-token" ].

Definition is_recovery_method (o : obj Users.t) (value : string)
    (m : Methods.t) : bool :=
  owned_by o m && (Methods.method m =? METHOD_RECOVERY_TOKEN)
  && (Methods.status m =? METHOD_ACTIVE)
  && String.eqb (Methods.token m) value.

Definition login_recovery (env : Env) (user_info : gmap string pyval)
    : M (obj Users.t) :=
  let* validated := lift (run_schema recovery_schema user_info) in
  let* username := getitem validated "username" in
  let* user_object :=
    get_user_or [INVALID_RECOVERY]
      (λ u, iexact (Users.username u) username && Users.active u) in
  let* value := getitem validated "token" in
  let* method_object :=
    get_method_or [INVALID_RECOVERY] (is_recovery_method user_object value) in
  (* Deactivates token regardless of expiration time *)
  let* method_object :=
    save_method (now env)
      (Obj (pk method_object)
           (Methods.set_status METHOD_INACTIVE (fields method_object))) in
  if Methods.expired (now env) (fields method_object)
  then raise_user [INVALID_RECOVERY]
  else
  save_method (now env)
    (Obj (pk method_object)
         (Methods.set_last_used (Some (now env)) (fields method_object)));;
  save_user (now env)
    (Obj (pk user_object)
         (Users.set_last_access (Some (now env)) (fields user_object))).

(** *** The instance operations of [Users]

    An instance operation changes [self] in place; here it returns the
    changed instance next to what the method returns. *)

(** [Users.delete]: the methods of the user go with the user
    ([on_delete=models.CASCADE]).  No table of this development protects
    a user, so the handler of [ProtectedError] is not reached. *)
Definition delete_user (self : obj Users.t) : M unit :=
  match pk self with
  | None => raise (RuntimeError "User must be defined to delete.")
  | Some uid =>
      modify (with_methods (qs_delete (owned_by self)));;
      modify (with_users (delete uid))
  end.

Definition deactivate (env : Env) (self : obj Users.t) : M (obj Users.t) :=
  match pk self with
  | None => raise (RuntimeError "User must be defined to set activation.")
  | Some _ =>
      let* self :=
        save_user (now env)
          (Obj (pk self) (Users.set_active false (fields self))) in
      modify (with_methods (qs_delete (owned_by self)));;
      mret self
  end.

Definition activate (env : Env) (self : obj Users.t) : M (obj Users.t) :=
  match pk self with
  | None => raise (RuntimeError "User must be defined to set activation.")
  | Some _ =>
      save_user (now env)
        (Obj (pk self) (Users.set_active true (fields self)))
  end.

Definition password_schema : list field :=
  [ Field "password" None Password "invalid-new-password" ].

(** The check of the old password in [modify_password]: the errors so
    far, with the error of the old password added. *)
Definition check_old_password (user_errors : list string) (old : pyval)
    (user_password : string) : M (list string) :=
  if negb (truthy old)
  then mret (user_errors ++ ["old-password-required"])%list
  else
    match old with
    | PStr old =>
        let test_password := hashpw (strip old) user_password in
        if negb (String.eqb test_password user_password)
        then mret (user_errors ++ ["invalid-old-password"])%list
        else mret user_errors
    | _ => raise AttributeError
    end.

Definition modify_password (env : Env) (self : obj Users.t) (new : pyval)
    (check : bool) (old : pyval) : M unit :=
  match pk self with
  | None => raise (RuntimeError "User must be defined to modify password.")
  | Some _ =>
      let user_errors :=
        ((if truthy new then [] else ["new-password-required"])
         ++ list_errors password_schema {[ "password" := new ]})%list in
      let* password_method :=
        get_method
          (λ m, owned_by self m && (Methods.method m =? METHOD_PASSWORD)) in
      let* user_errors :=
        (if check
         then check_old_password user_errors old
                (Methods.password (fields password_method))
         else mret user_errors : M (list string)) in
      raise_if_any user_errors;;
      match new with
      | PStr new =>
          let new_password := hashpw new (gensalt env) in
          save_method (now env)
            (Obj (pk password_method)
                 (Methods.set_password new_password
                    (fields password_method)));;
          mret tt
      | _ => raise AttributeError
      end
  end.

Definition is_active_recovery (o : obj Users.t) (m : Methods.t) : bool :=
  owned_by o m && (Methods.method m =? METHOD_RECOVERY_TOKEN)
  && (Methods.status m =? METHOD_ACTIVE).

Definition recover (env : Env) (self : obj Users.t) : M unit :=
  match pk self with
  | None => raise (RuntimeError "User must be defined to recover account.")
  | Some uid =>
      (* Deactivates all old recovery tokens *)
      modify (with_methods
                (qs_update (is_active_recovery self)
                           (Methods.set_status METHOD_INACTIVE)));;
      let email := Users.email (fields self) in
      let random_salt := random_string env TOKEN_SALT_SIZE in
      let token := sha1_hexdigest (email +:+ random_salt) in
      save_method (now env)
        (Obj None
           (Methods.set_expiration (Some (now env + VALIDATION_TIME))
              (Methods.set_token token
                 (Methods.new uid METHOD_RECOVERY_TOKEN 0))));;
      if mail_sent env
      then mret tt
      else raise_user ["recovery-email-failure"]
  end.

Definition is_oath_key (o : obj Users.t) (m : Methods.t) : bool :=
  owned_by o m && (Methods.method m =? METHOD_OATH_KEY).

Definition generate_oath (env : Env) (self : obj Users.t) : M string :=
  match pk self with
  | None => raise (RuntimeError "User must be defined for OATH generation.")
  | Some uid =>
      modify (with_methods (qs_delete (is_oath_key self)));;
      let random := random_string env OATH_STRING_SIZE in
      let key := b32encode random in
      save_method (now env)
        (Obj None (Methods.set_token key (Methods.new uid METHOD_OATH_KEY 2)));;
      mret key
  end.

Definition validate_schema : list field :=
  [ Field "token" None VALID_TOKEN_REGEX "invalid-token" ].

Definition is_validation_method (o : obj Users.t) (value : string)
    (m : Methods.t) : bool :=
  owned_by o m && (Methods.method m =? METHOD_VALIDATION_TOKEN)
  && (Methods.status m =? METHOD_ACTIVE)
  && String.eqb (Methods.token m) value.

Definition validate (env : Env) (self : obj Users.t) (token : pyval)
    : M (obj Users.t) :=
  match pk self with
  | None => raise (RuntimeError "User must be defined to validate account.")
  | Some _ =>
      if negb (truthy token)
      then raise_user ["token-required"]
      else
      let* validated :=
        lift (run_schema validate_schema {[ "token" := token ]}) in
      let* value := getitem validated "token" in
      let* method_object :=
        get_method_or ["invalid-token"] (is_validation_method self value) in
      let* method_object :=
        save_method (now env)
          (Obj (pk method_object)
               (Methods.set_last_used (Some (now env))
                  (Methods.set_status METHOD_INACTIVE
                     (fields method_object)))) in
      if Methods.expired (now env) (fields method_object)
      then raise_user ["token-expired"]
      else
      save_user (now env)
        (Obj (pk self) (Users.set_validated true (fields self)))
  end.

(** *** The other operations of the managers and of [Users] *)

(** [try: self.get_queryset().get(...) except Users.DoesNotExist: return
    False], and [return True] after it. *)
Definition found {A} (r : result A) : result bool :=
  match r with
  | Ok _ => Ok true
  | Raise DoesNotExist => Ok false
  | Raise e => Raise e
  | UserError errs => UserError errs
  end.

(** [UserManager.user_exists] *)
Definition user_exists (username : string) : M bool :=
  λ db, (found (qs_get (λ u, iexact (Users.username u) username) (users db)),
         db).

(** [UserManager.email_exists] *)
Definition email_exists (email : string) : M bool :=
  λ db, (found (qs_get (λ u, iexact (Users.email u) email) (users db)), db).

(** [AdminManager.get_queryset]: the users that the manager [admins]
    works on. *)
Definition admins (db : DB) : gmap positive Users.t :=
  qs_filter (λ u, Users.user_type u =? USER_ADMIN) (users db).


Definition info_schema : list field :=
  [ Field "username" None VALID_USERNAME_REGEX "invalid-username";
    Field "first_name" None VALID_NAME_REGEX "invalid-first-name";
    Field "last_name" None VALID_NAME_REGEX "invalid-last-name";
    Field "email" None VALID_EMAIL_REGEX "invalid-email" ].

(** [for key, value in validated.items(): setattr(self, key, value)], for
    the keys that the schema of [modify_info] lets through. *)
Definition set_info (validated : gmap string string) (u : Users.t)
    : Users.t :=
  Users.mk (default (Users.username u) (validated !! "username"))
           (default (Users.first_name u) (validated !! "first_name"))
           (default (Users.last_name u) (validated !! "last_name"))
           (default (Users.email u) (validated !! "email"))
           (Users.user_type u) (Users.active u) (Users.last_access u)
           (Users.created u) (Users.modified u) (Users.validated u).

Definition modify_info (env : Env) (self : obj Users.t)
    (user_info : gmap string pyval) : M (obj Users.t) :=
  match pk self with
  | None => raise (RuntimeError "User must be defined to modify.")
  | Some _ =>
      let* validated := lift (run_schema info_schema user_info) in
      save_user (now env) (Obj (pk self) (set_info validated (fields self)))
  end.

Definition set_admin (env : Env) (self : obj Users.t) : M (obj Users.t) :=
  match pk self with
  | None => raise (RuntimeError "User must be defined to update status.")
  | Some _ =>
      save_user (now env)
        (Obj (pk self) (Users.set_user_type USER_ADMIN (fields self)))
  end.

Definition set_standard (env : Env) (self : obj Users.t)
    : M (obj Users.t) :=
  match pk self with
  | None => raise (RuntimeError "User must be defined to update status.")
  | Some _ =>
      save_user (now env)
        (Obj (pk self) (Users.set_user_type USER_STANDARD (fields self)))
  end.

(** ** Calls

    The operations above as the calls that a client of the models can make,
    and the database that a call leaves. *)

Inductive call : Type :=
  | Create (user_info : gmap string pyval)
  | LoginPassword (update_access : bool) (user_info : gmap string pyval)
  | LoginOath (token : pyval) (user_info : gmap string pyval)
  | LoginRecovery (user_info : gmap string pyval)
  | Delete (self : obj Users.t)
  | Deactivate (self : obj Users.t)
  | Activate (self : obj Users.t)
  | ModifyPassword (self : obj Users.t) (new : pyval) (check : bool)
      (old : pyval)
  | Recover (self : obj Users.t)
  | GenerateOath (self : obj Users.t)
  | Validate (self : obj Users.t) (token : pyval).

Definition run (env : Env) (c : call) (db : DB) : DB :=
  match c with
  | Create user_info => (create env user_info db).2
  | LoginPassword update_access user_info =>
      (login_password env update_access user_info db).2
  | LoginOath token user_info => (login_oath env token user_info db).2
  | LoginRecovery user_info => (login_recovery env user_info db).2
  | Delete self => (delete_user self db).2
  | Deactivate self => (deactivate env self db).2
  | Activate self => (activate env self db).2
  | ModifyPassword self new check old =>
      (modify_password env self new check old db).2
  | Recover self => (recover env self db).2
  | GenerateOath self => (generate_oath env self db).2
  | Validate self token => (validate env self token db).2
  end.

(** ** Notions used in the statements *)

(** An active recovery-token method of the user with the key [uid]. *)
Definition active_recovery_of (uid : positive) (m : Methods.t) : bool :=
  (Methods.user m =? uid)%positive
  && (Methods.method m =? METHOD_RECOVERY_TOKEN)
  && (Methods.status m =? METHOD_ACTIVE).

(** The method that [recover] makes for the user with the key [uid],
    as it is stored. *)
Definition new_recovery (env : Env) (self : obj Users.t) (uid : positive)
    : Methods.t :=
  pre_save true (now env)
    (Methods.set_expiration (Some (now env + VALIDATION_TIME))
       (Methods.set_token
          (sha1_hexdigest
             (Users.email (fields self)
              +:+ random_string env TOKEN_SALT_SIZE))
          (Methods.new uid METHOD_RECOVERY_TOKEN 0))).

(** The method that [generate_oath] makes for the user with the key
    [uid], as it is stored. *)
Definition new_oath (env : Env) (uid : positive) : Methods.t :=
  pre_save true (now env)
    (Methods.set_token (b32encode (random_string env OATH_STRING_SIZE))
       (Methods.new uid METHOD_OATH_KEY 2)).

(** The active recovery-token methods of the table [t'] are rows of [t]
    that were already active recovery-token methods of the same user. *)
Definition no_new_recovery (t t' : gmap positive Methods.t) : Prop :=
  ∀ uid j m',
    t' !! j = Some m' → active_recovery_of uid m' = true →
    ∃ m, t !! j = Some m ∧ active_recovery_of uid m = true.

(** The computation [m] adds no active recovery-token method, from any
    database, and what it returns satisfies [Q]. *)
Definition keeps {A} (m : M A) (Q : A → Prop) : Prop :=
  ∀ db, no_new_recovery (methods db) (methods (m db).2)
        ∧ ∀ a, (m db).1 = Ok a → Q a.

(** A row that is not an active recovery-token method. *)
Definition not_recovery (m : Methods.t) : Prop :=
  Methods.method m ≠ METHOD_RECOVERY_TOKEN
  ∨ Methods.status m ≠ METHOD_ACTIVE.

(** No user has two active recovery-token methods. *)
Definition one_active_recovery_at_most (db : DB) : Prop :=
  ∀ uid i j mi mj,
    methods db !! i = Some mi → methods db !! j = Some mj →
    active_recovery_of uid mi = true → active_recovery_of uid mj = true →
    i = j.

(** The row of a method after [login_recovery] has deactivated it. *)
Definition burned (now : Z) (m : Methods.t) : Methods.t :=
  pre_save false now (Methods.set_status METHOD_INACTIVE m).

(** The row of a method after [validate] has used it. *)
Definition used (now : Z) (m : Methods.t) : Methods.t :=
  pre_save false now
    (Methods.set_last_used (Some now)
       (Methods.set_status METHOD_INACTIVE m)).

(** What [create] reads from the [new-users] flag: [None] when user
    creation is disabled, and otherwise whether a token is required. *)
Definition token_required_by (d : Data.t) : option bool :=
  if Data.setting d =? 0
  then if String.eqb (Data.data d) "token" then Some true else None
  else Some false.

(** Every method belongs to a user of the database, as the foreign key
    of [Methods.user] asks. *)
Definition methods_have_users (db : DB) : Prop :=
  ∀ j m, methods db !! j = Some m → is_Some (users db !! Methods.user m).

(** The fields that [create] passes on to the new row of the user. *)
Definition user_fields (token_required : bool)
    (user_info : gmap string pyval) : gmap string string :=
  delete "password"
    (if token_required
     then delete "token" (omap str_of user_info)
     else omap str_of user_info).

(** The rows that a successful [create] stores: the user, the password
    method and the validation-token method. *)
Definition created_user (env : Env) (token_required : bool)
    (user_info : gmap string pyval) : Users.t :=
  pre_save true (now env) (new_user (user_fields token_required user_info)).
Definition created_password (env : Env) (uid : positive) (pw : string)
    : Methods.t :=
  pre_save true (now env)
    (Methods.set_password (hashpw pw (gensalt env))
       (Methods.new uid METHOD_PASSWORD 1)).
Definition created_validation (env : Env) (uid : positive) (em : string)
    : Methods.t :=
  pre_save true (now env)
    (Methods.set_token
       (sha1_hexdigest (em +:+ random_string env TOKEN_SALT_SIZE))
       (Methods.new uid METHOD_VALIDATION_TOKEN 0)).

(** The database that a successful [create] leaves; [ticket] is the token
    that the call used, if it needed one. *)
Definition after_create (env : Env) (token_required : bool)
    (user_info : gmap string pyval) (pw em : string)
    (ticket : option (obj Tokens.t)) (db : DB) : DB :=
  let uid := fresh (dom (users db)) in
  let kp := fresh (dom (methods db)) in
  let mp := created_password env uid pw in
  let kv := fresh (dom (<[kp:=mp]> (methods db))) in
  mkDB (<[uid := created_user env token_required user_info]> (users db))
       (<[kv := created_validation env uid em]> (<[kp:=mp]> (methods db)))
       (match ticket with
        | Some token_object =>
            (save_row (now env)
               (Obj (pk token_object)
                    (Tokens.set_exhausted true (fields token_object)))
               (tokens db)).2
        | None => tokens db
        end)
       (flags db).

(** A computation that writes nothing. *)
Definition reads {A} (m : M A) : Prop := ∀ db, (m db).2 = db.




(** The database with other settings, and a computation that neither
    reads nor writes the settings. *)
Definition set_flags (fl : gmap positive Data.t) (db : DB) : DB :=
  mkDB (users db) (methods db) (tokens db) fl.
Definition ignores_flags {A} (m : M A) : Prop :=
  ∀ db fl, m (set_flags fl db) = ((m db).1, set_flags fl (m db).2).

(** The filter of [modify_password] on the methods. *)
Definition is_own_password (self : obj Users.t) (m : Methods.t) : bool :=
  owned_by self m && (Methods.method m =? METHOD_PASSWORD).

(** * Properties *)

(** ** Tables *)

Section table_facts.
Context {A : Type} `{!Model A}.
Implicit Types (t : gmap positive A) (P : A → bool).

Lemma qs_filter_lookup P t k a :
  qs_filter P t !! k = Some a ↔ t !! k = Some a ∧ P a = true.
Proof.
  unfold qs_filter. rewrite map_lookup_filter_Some. simpl.
  rewrite Is_true_true. done.
Qed.

Lemma qs_filter_empty P t :
  qs_filter P t = ∅ ↔ ∀ k a, t !! k = Some a → P a = false.
Proof.
  unfold qs_filter. rewrite map_empty_filter. unfold map_Forall. simpl.
  split; intros H0 k a Hk; specialize (H0 k a Hk).
  - by apply negb_prop_intro, Is_true_true, negb_true_iff in H0.
  - rewrite H0. auto.
Qed.

Lemma qs_filter_singleton P t k a :
  t !! k = Some a → P a = true →
  (∀ j b, t !! j = Some b → P b = true → j = k) →
  qs_filter P t = {[ k := a ]}.
Proof.
  intros Hk HP Huniq. apply map_eq. intros j.
  destruct (decide (j = k)) as [->|Hne].
  - rewrite lookup_singleton_eq. by apply qs_filter_lookup.
  - rewrite lookup_singleton_ne by done.
    destruct (qs_filter P t !! j) as [b|] eqn:Hj; [|done].
    apply qs_filter_lookup in Hj as [Hj Hb].
    by specialize (Huniq j b Hj Hb).
Qed.

(** [get] returns a row that the filter selects, and only when it
    selects no other. *)
Lemma qs_get_Ok P t o :
  qs_get P t = Ok o →
  ∃ k, pk o = Some k ∧ t !! k = Some (fields o) ∧ P (fields o) = true
       ∧ ∀ j b, t !! j = Some b → P b = true → j = k.
Proof.
  unfold qs_get. intros Hget.
  destruct (map_to_list (qs_filter P t)) as [|[k a] [|? ?]] eqn:Hl;
    simplify_eq.
  assert (Hf : qs_filter P t = {[ k := a ]}).
  { rewrite <- (list_to_map_to_list (qs_filter P t)), Hl. done. }
  exists k. simpl. split; [done|].
  assert (Hk : qs_filter P t !! k = Some a)
    by (rewrite Hf; apply lookup_singleton_eq).
  apply qs_filter_lookup in Hk as [Hk HP]. repeat split; try done.
  intros j b Hj Hb.
  assert (Hjb : qs_filter P t !! j = Some b) by by apply qs_filter_lookup.
  rewrite Hf in Hjb. by apply lookup_singleton_Some in Hjb as [? _].
Qed.

Lemma qs_get_unique P t k a :
  t !! k = Some a → P a = true →
  (∀ j b, t !! j = Some b → P b = true → j = k) →
  qs_get P t = Ok (Obj (Some k) a).
Proof.
  intros Hk HP Huniq. unfold qs_get.
  rewrite (qs_filter_singleton P t k a) by done.
  by rewrite map_to_list_singleton.
Qed.

Lemma qs_get_none P t :
  (∀ k a, t !! k = Some a → P a = false) →
  qs_get P t = Raise DoesNotExist.
Proof.
  intros Hnone. unfold qs_get.
  apply qs_filter_empty in Hnone. by rewrite Hnone, map_to_list_empty.
Qed.


Lemma qs_get_not_user_error P t errs : qs_get P t ≠ UserError errs.
Proof.
  unfold qs_get.
  by destruct (map_to_list (qs_filter P t)) as [|[k a] [|? ?]].
Qed.

Lemma qs_nonempty_true P t :
  qs_nonempty P t = true ↔ ∃ k a, t !! k = Some a ∧ P a = true.
Proof.
  unfold qs_nonempty. split.
  - destruct (map_to_list (qs_filter P t)) as [|[k a] l] eqn:Hl; [done|].
    intros _. exists k, a. apply qs_filter_lookup, elem_of_map_to_list.
    rewrite Hl. left.
  - intros (k & a & Hk & HP).
    assert (Hin : (k, a) ∈ map_to_list (qs_filter P t))
      by by apply elem_of_map_to_list, qs_filter_lookup.
    destruct (map_to_list (qs_filter P t)); [|done].
    by apply elem_of_nil in Hin.
Qed.

Lemma qs_update_lookup P (f : A → A) t k :
  qs_update P f t !! k = (λ a, if P a then f a else a) <$> t !! k.
Proof. unfold qs_update. apply lookup_fmap. Qed.

Lemma qs_delete_lookup P t k a :
  qs_delete P t !! k = Some a ↔ t !! k = Some a ∧ P a = false.
Proof.
  unfold qs_delete. rewrite map_lookup_filter_Some. simpl.
  rewrite <- Is_true_false. done.
Qed.

Lemma save_row_key now (o : obj A) t k :
  pk o = Some k →
  save_row now o t =
    (Obj (Some k) (pre_save (bool_decide (t !! k = None)) now (fields o)),
     <[k := pre_save (bool_decide (t !! k = None)) now (fields o)]> t).
Proof. intros Hk. unfold save_row. by rewrite Hk. Qed.

Lemma save_row_new now (a : A) t :
  save_row now (Obj None a) t =
    (Obj (Some (fresh (dom t))) (pre_save true now a),
     <[fresh (dom t) := pre_save true now a]> t).
Proof.
  unfold save_row. simpl.
  assert (Hfresh : t !! fresh (dom t) = None)
    by apply not_elem_of_dom, is_fresh.
  by rewrite bool_decide_eq_true_2.
Qed.

Lemma fresh_lookup t : t !! fresh (dom t) = None.
Proof. apply not_elem_of_dom, is_fresh. Qed.

End table_facts.

(** ** Schemas *)

Lemma run_schema_ok sch data :
  list_errors sch data = [] → run_schema sch data = Ok (omap str_of data).
Proof. unfold run_schema. by intros ->. Qed.

Lemma run_schema_errors sch data :
  list_errors sch data ≠ [] →
  run_schema sch data = UserError (list_errors sch data).
Proof. unfold run_schema. by destruct (list_errors sch data). Qed.

Lemma validated_lookup (data : gmap string pyval) k s :
  data !! k = Some (PStr s) → omap str_of data !! k = Some s.
Proof. intros Hk. by rewrite lookup_omap, Hk. Qed.

Section table_updates.
Context {A : Type} `{!Model A}.
Implicit Types (t : gmap positive A) (P : A → bool).

(** Saving the row that [get] found, with the filter still true of it:
    [get] finds it again. *)
Lemma qs_get_insert_true P t o k a' :
  qs_get P t = Ok o → pk o = Some k → P a' = true →
  qs_get P (<[k:=a']> t) = Ok (Obj (Some k) a').
Proof.
  intros Hget Hpk HP.
  destruct (qs_get_Ok _ _ _ Hget) as (k' & Hpk' & Hk & _ & Huniq).
  assert (k' = k) as -> by congruence.
  apply qs_get_unique; [apply lookup_insert_eq|done|].
  intros j b Hj Hb. destruct (decide (j = k)) as [|Hne]; [done|].
  rewrite lookup_insert_ne in Hj by done. eauto.
Qed.

(** Saving it with the filter false of it: no row is left to find. *)
Lemma qs_get_insert_false P t o k a' j b :
  qs_get P t = Ok o → pk o = Some k → P a' = false →
  <[k:=a']> t !! j = Some b → P b = false.
Proof.
  intros Hget Hpk HP Hj.
  destruct (qs_get_Ok _ _ _ Hget) as (k' & Hpk' & Hk & _ & Huniq).
  assert (k' = k) as -> by congruence.
  destruct (decide (j = k)) as [->|Hne].
  - rewrite lookup_insert_eq in Hj. congruence.
  - rewrite lookup_insert_ne in Hj by done.
    destruct (P b) eqn:Hb; [|done]. by specialize (Huniq j b Hj Hb).
Qed.

End table_updates.

(** ** Running an operation *)

(** Unfolds the monad, so that [simpl] runs an operation up to the next
    lookup. *)
Ltac munfold :=
  unfold raise_if_any, getitem, get_flag, get_user, get_method, get_token,
    get_user_or, get_method_or, get_token_or, user_key, save_user,
    save_method, save_token;
  unfold mbind, M_bind; unfold bind;
  unfold mret, M_ret, lift, gets, modify, raise_user, raise;
  unfold with_users, with_methods, with_tokens.

(** ** Recovery login *)

Section recovery.

(** The path of [login_recovery] on which both lookups succeed. *)
Lemma login_recovery_found env info db uname value user_object method_object
    ku km :
  list_errors recovery_schema info = [] →
  info !! "username" = Some (PStr uname) →
  info !! "token" = Some (PStr value) →
  qs_get (λ u, iexact (Users.username u) uname && Users.active u)
         (users db) = Ok user_object →
  qs_get (is_recovery_method user_object value) (methods db)
    = Ok method_object →
  pk user_object = Some ku → pk method_object = Some km →
  let m1 := burned (now env) (fields method_object) in
  let m2 := pre_save false (now env)
              (Methods.set_last_used (Some (now env)) m1) in
  let u1 := pre_save false (now env)
              (Users.set_last_access (Some (now env)) (fields user_object)) in
  login_recovery env info db =
    if Methods.expired (now env) (fields method_object)
    then (UserError [INVALID_RECOVERY],
          mkDB (users db) (<[km:=m1]> (methods db)) (tokens db) (flags db))
    else (Ok (Obj (Some ku) u1),
          mkDB (<[ku:=u1]> (users db)) (<[km:=m2]> (<[km:=m1]> (methods db)))
               (tokens db) (flags db)).
Proof.
  intros Hs Hu Ht Hgu Hgm Hku Hkm m1 m2 u1.
  destruct (qs_get_Ok _ _ _ Hgu) as (ku' & Hku' & Hlu & _).
  destruct (qs_get_Ok _ _ _ Hgm) as (km' & Hkm' & Hlm & _).
  assert (ku' = ku) as -> by congruence.
  assert (km' = km) as -> by congruence.
  unfold login_recovery.
  unfold bind at 1. unfold lift. rewrite (run_schema_ok _ _ Hs).
  unfold bind at 1, getitem at 1. rewrite (validated_lookup _ _ _ Hu). simpl.
  unfold bind at 1, get_user_or. rewrite Hgu. simpl.
  unfold bind at 1, getitem at 1. rewrite (validated_lookup _ _ _ Ht). simpl.
  unfold bind at 1, get_method_or. rewrite Hgm. simpl.
  unfold bind at 1, save_method at 1.
  rewrite (save_row_key _ _ _ km) by done. simpl.
  rewrite bool_decide_eq_false_2 by (rewrite Hlm; done).
  fold (burned (now env) (fields method_object)). fold m1.
  replace (Methods.expired (now env) m1)
    with (Methods.expired (now env) (fields method_object)) by done.
  destruct (Methods.expired (now env) (fields method_object)); [done|].
  unfold mbind, M_bind, bind, save_method, save_user, with_methods,
    with_users. simpl.
  rewrite Hku. simpl. rewrite lookup_insert_eq.
  rewrite !bool_decide_eq_false_2 by (by rewrite ?Hlu).
  done.
Qed.

(** The path on which the user is found and no method matches. *)
Lemma login_recovery_no_method env info db uname value user_object :
  list_errors recovery_schema info = [] →
  info !! "username" = Some (PStr uname) →
  info !! "token" = Some (PStr value) →
  qs_get (λ u, iexact (Users.username u) uname && Users.active u)
         (users db) = Ok user_object →
  (∀ j b, methods db !! j = Some b →
          is_recovery_method user_object value b = false) →
  login_recovery env info db
    = (UserError [INVALID_RECOVERY], db).
Proof.
  intros Hs Hu Ht Hgu Hnone.
  unfold login_recovery.
  unfold bind at 1. unfold lift. rewrite (run_schema_ok _ _ Hs).
  unfold bind at 1, getitem at 1. rewrite (validated_lookup _ _ _ Hu). simpl.
  unfold bind at 1, get_user_or. rewrite Hgu. simpl.
  unfold bind at 1, getitem at 1. rewrite (validated_lookup _ _ _ Ht). simpl.
  unfold bind at 1, get_method_or. by rewrite (qs_get_none _ _ Hnone).
Qed.

Lemma is_recovery_method_pk (o o' : obj Users.t) value m :
  pk o = pk o' → is_recovery_method o value m = is_recovery_method o' value m.
Proof. unfold is_recovery_method, owned_by. by intros ->. Qed.

Lemma is_recovery_method_inactive o value m :
  Methods.status m = METHOD_INACTIVE → is_recovery_method o value m = false.
Proof.
  unfold is_recovery_method. intros ->.
  by rewrite andb_false_r.
Qed.

(** C1: when [login_recovery] finds the user and an active recovery method
    with the given token, the method is stored inactive whether or not it
    has expired; when it has expired the call fails with
    [invalid-recovery], and otherwise it returns the user; and every later
    call with the same token and the same name, in any case of the
    letters, fails with [invalid-recovery]. *)
Theorem login_recovery_single_use env info db uname value user_object
    method_object :
  list_errors recovery_schema info = [] →
  info !! "username" = Some (PStr uname) →
  info !! "token" = Some (PStr value) →
  qs_get (λ u, iexact (Users.username u) uname && Users.active u)
         (users db) = Ok user_object →
  qs_get (is_recovery_method user_object value) (methods db)
    = Ok method_object →
  let first := login_recovery env info db in
  ∃ km m',
    pk method_object = Some km
    ∧ methods first.2 !! km = Some m'
    ∧ Methods.status m' = METHOD_INACTIVE
    ∧ Methods.user m' = Methods.user (fields method_object)
    ∧ Methods.method m' = METHOD_RECOVERY_TOKEN
    ∧ Methods.token m' = value
    ∧ (Methods.expired (now env) (fields method_object) = true →
       first.1 = UserError [INVALID_RECOVERY])
    ∧ (Methods.expired (now env) (fields method_object) = false →
       ∃ u, first.1 = Ok u ∧ pk u = pk user_object)
    ∧ ∀ env' info' uname',
        list_errors recovery_schema info' = [] →
        info' !! "username" = Some (PStr uname') →
        info' !! "token" = Some (PStr value) →
        lower uname' = lower uname →
        (login_recovery env' info' first.2).1 = UserError [INVALID_RECOVERY].
Proof.
  intros Hs Hu Ht Hgu Hgm first.
  destruct (qs_get_Ok _ _ _ Hgu) as (ku & Hku & Hlu & HPu & _).
  destruct (qs_get_Ok _ _ _ Hgm) as (km & Hkm & Hlm & HPm & _).
  pose proof (login_recovery_found env info db uname value user_object
                method_object ku km Hs Hu Ht Hgu Hgm Hku Hkm) as Hfirst.
  simpl in Hfirst. fold first in Hfirst.
  assert (Hfields : Methods.method (fields method_object)
                      = METHOD_RECOVERY_TOKEN
                    ∧ Methods.token (fields method_object) = value).
  { unfold is_recovery_method in HPm.
    repeat (apply andb_true_iff in HPm as [HPm ?]).
    split; [lia|]. by apply String.eqb_eq. }
  destruct Hfields as [Hkind Htok].
  assert (Hreuse : ∀ env' info' uname' db2 m2 uo,
            list_errors recovery_schema info' = [] →
            info' !! "username" = Some (PStr uname') →
            info' !! "token" = Some (PStr value) →
            lower uname' = lower uname →
            db2 = mkDB (users db2) (<[km:=m2]> (methods db)) (tokens db2)
                       (flags db2) →
            Methods.status m2 = METHOD_INACTIVE →
            qs_get (λ u, iexact (Users.username u) uname && Users.active u)
                   (users db2) = Ok uo →
            pk uo = pk user_object →
            (login_recovery env' info' db2).1
              = UserError [INVALID_RECOVERY]).
  { intros env' info' uname' db2 m2 uo Hs' Hu' Ht' Hlower Hdb2 Hst Hgu2
      Hpk2.
    rewrite (login_recovery_no_method env' info' db2 uname' value uo);
      try done.
    { unfold iexact. rewrite Hlower. exact Hgu2. }
    intros j b Hj. rewrite (is_recovery_method_pk uo user_object) by done.
    rewrite Hdb2 in Hj. simpl in Hj.
    eapply (qs_get_insert_false _ _ _ km m2); try done.
    by apply is_recovery_method_inactive. }
  exists km.
  destruct (Methods.expired (now env) (fields method_object)) eqn:Hexp;
    rewrite Hfirst; simpl.
  - exists (burned (now env) (fields method_object)).
    rewrite lookup_insert_eq. repeat split; try done.
    intros env' info' uname' Hs' Hu' Ht' Hlower. by eapply Hreuse.
  - eexists. rewrite lookup_insert_eq. repeat split; try done.
    + eauto.
    + intros env' info' uname' Hs' Hu' Ht' Hlower.
      eapply (Hreuse env' info' uname' _ _ (Obj (Some ku) _)); simpl;
        try done.
      * by rewrite insert_insert_eq.
      * done.
      * by apply (qs_get_insert_true _ _ user_object).
Qed.

End recovery.

(** ** Password login *)

Section password_login.

(** [login_password] once the flag allows logins and the fields pass the
    schema: what is left are the three lookups. *)
Lemma login_password_enabled env upd info db flag uname pw :
  qs_get (has_tag "user-login") (flags db) = Ok flag →
  Data.setting (fields flag) ≠ 0 →
  list_errors login_schema info = [] →
  info !! "username" = Some (PStr uname) →
  info !! "password" = Some (PStr pw) →
  login_password env upd info db =
    match qs_get (λ u, iexact (Users.username u) uname) (users db) with
    | Ok user_object =>
        if Users.active (fields user_object)
        then
          match qs_get (is_password_method user_object) (methods db) with
          | Ok method_object =>
              let user_password := Methods.password (fields method_object) in
              if String.eqb (hashpw pw user_password) user_password
              then
                bind (save_method (now env)
                        (Obj (pk method_object)
                             (Methods.set_last_used (Some (now env))
                                (fields method_object))))
                     (λ _, if upd
                           then save_user (now env)
                                  (Obj (pk user_object)
                                       (Users.set_last_access
                                          (Some (now env))
                                          (fields user_object)))
                           else mret user_object) db
              else (UserError [INVALID_LOGIN], db)
          | UserError errs => (UserError errs, db)
          | Raise DoesNotExist => (UserError [INVALID_LOGIN], db)
          | Raise e => (Raise e, db)
          end
        else (UserError ["user-inactive"], db)
    | UserError errs => (UserError errs, db)
    | Raise DoesNotExist => (UserError [INVALID_LOGIN], db)
    | Raise e => (Raise e, db)
    end.
Proof.
  intros Hflag Hset Hs Hu Hp.
  unfold login_password.
  unfold bind at 1, get_flag. rewrite Hflag.
  rewrite (proj2 (Z.eqb_neq _ _) Hset).
  unfold bind at 1, lift. rewrite (run_schema_ok _ _ Hs).
  unfold bind at 1, getitem at 1. rewrite (validated_lookup _ _ _ Hu). simpl.
  unfold bind at 1, get_user_or.
  destruct (qs_get _ (users db)) as [user_object|errs|[]]; simpl; try done.
  destruct (Users.active (fields user_object)); simpl; [|done].
  unfold bind at 1, get_method_or.
  destruct (qs_get _ (methods db)) as [method_object|errs|[]]; simpl;
    try done.
  unfold bind at 1, getitem at 1. rewrite (validated_lookup _ _ _ Hp). simpl.
  by destruct (String.eqb _ _).
Qed.

(** C2, as the code has it: with logins enabled and both fields given as
    strings, an unknown username, a user without an active password method
    at step 1 and a wrong password all fail with the one code
    [invalid-login], and an inactive user fails with the one code
    [user-inactive]; the database is left as it was. *)
Theorem login_password_failure_codes env upd info db flag uname pw :
  qs_get (has_tag "user-login") (flags db) = Ok flag →
  Data.setting (fields flag) ≠ 0 →
  list_errors login_schema info = [] →
  info !! "username" = Some (PStr uname) →
  info !! "password" = Some (PStr pw) →
  let by_name := λ u, iexact (Users.username u) uname in
  let outcome := login_password env upd info db in
  (qs_get by_name (users db) = Raise DoesNotExist →
   outcome = (UserError [INVALID_LOGIN], db))
  ∧ (∀ user_object,
       qs_get by_name (users db) = Ok user_object →
       Users.active (fields user_object) = false →
       outcome = (UserError ["user-inactive"], db))
  ∧ (∀ user_object,
       qs_get by_name (users db) = Ok user_object →
       Users.active (fields user_object) = true →
       qs_get (is_password_method user_object) (methods db)
         = Raise DoesNotExist →
       outcome = (UserError [INVALID_LOGIN], db))
  ∧ (∀ user_object method_object,
       qs_get by_name (users db) = Ok user_object →
       Users.active (fields user_object) = true →
       qs_get (is_password_method user_object) (methods db)
         = Ok method_object →
       hashpw pw (Methods.password (fields method_object))
         ≠ Methods.password (fields method_object) →
       outcome = (UserError [INVALID_LOGIN], db)).
Proof.
  intros Hflag Hset Hs Hu Hp by_name outcome.
  unfold outcome.
  rewrite (login_password_enabled env upd info db flag uname pw) by done.
  fold by_name. repeat split.
  - by intros ->.
  - intros user_object -> ->. done.
  - by intros user_object -> -> ->.
  - intros user_object method_object -> -> -> Hne. simpl.
    apply String.eqb_neq in Hne. by rewrite Hne.
Qed.

End password_login.

(** ** Registration *)

Section registration.

(** C5, as the code has it: when the [new-users] flag has setting 0 and
    its data is not [token], [create] fails with the single error
    [creation-disabled], whatever the submitted fields are, and writes
    nothing. *)
Theorem create_disabled env info db flag :
  qs_get (has_tag "new-users") (flags db) = Ok flag →
  Data.setting (fields flag) = 0 →
  Data.data (fields flag) ≠ "token" →
  create env info db = (UserError ["creation-disabled"], db).
Proof.
  intros Hflag Hset Hdata. unfold create.
  unfold bind at 1, get_flag. rewrite Hflag, Hset. simpl.
  apply String.eqb_neq in Hdata. by rewrite Hdata.
Qed.

(** The steps of [create] up to the lookups of the username and of the
    email address. *)
Ltac create_prefix Hflag Hmode Hs Hu He :=
  unfold create, check_token; munfold;
  rewrite Hflag; unfold token_required_by in Hmode;
  destruct (Data.setting (fields _) =? 0);
    [destruct (String.eqb (Data.data (fields _)) "token")|];
    simplify_eq; simpl;
  rewrite (run_schema_ok _ _ Hs); simpl;
  rewrite !(validated_lookup _ _ _ Hu); simpl;
  rewrite !(validated_lookup _ _ _ He); simpl.

(** C6: when user creation is not disabled and the submitted fields pass
    the schema, a username and an email address that both exist already,
    in any case of the letters, make [create] fail with the two errors
    [user-exists] and [email-exists] together. *)
Theorem create_reports_both_collisions env info db flag token_required uname
    em :
  qs_get (has_tag "new-users") (flags db) = Ok flag →
  token_required_by (fields flag) = Some token_required →
  list_errors (create_schema token_required) info = [] →
  info !! "username" = Some (PStr uname) →
  info !! "email" = Some (PStr em) →
  (∃ k u, users db !! k = Some u ∧ lower (Users.username u) = lower uname) →
  (∃ k u, users db !! k = Some u ∧ lower (Users.email u) = lower em) →
  create env info db = (UserError ["user-exists"; "email-exists"], db).
Proof.
  intros Hflag Hmode Hs Hu He (k1 & u1 & Hk1 & Hn1) (k2 & u2 & Hk2 & Hn2).
  assert (Huser : qs_nonempty (λ u, iexact (Users.username u) uname)
                              (users db) = true).
  { apply qs_nonempty_true. exists k1, u1. split; [done|].
    by apply String.eqb_eq. }
  assert (Hemail : qs_nonempty (λ u, iexact (Users.email u) em)
                               (users db) = true).
  { apply qs_nonempty_true. exists k2, u2. split; [done|].
    by apply String.eqb_eq. }
  create_prefix Hflag Hmode Hs Hu He; by rewrite Huser, Hemail.
Qed.

Lemma qs_nonempty_false {A} (P : A → bool) (t : gmap positive A) :
  (∀ k a, t !! k = Some a → P a = false) → qs_nonempty P t = false.
Proof.
  intros Hnone. destruct (qs_nonempty P t) eqn:Hne; [|done].
  apply qs_nonempty_true in Hne as (k & a & Hk & HP).
  specialize (Hnone k a Hk). congruence.
Qed.

(** The steps of [create] from the lookups to the check of the token,
    when neither the username nor the email address exists. *)
Ltac create_no_collision Huser Hemail := rewrite Huser, Hemail; simpl.

(** C4, as the code has it: in a registration that requires a token and
    gets as far as looking it up by the purpose [new-user] and the given
    value, no such token gives [no-such-token]; a token that is exhausted
    gives [token-exhausted], one that has expired gives [token-expired],
    and one that is both gives the two errors together.  Nothing is
    written. *)
Theorem create_token_errors env info db flag uname em value :
  qs_get (has_tag "new-users") (flags db) = Ok flag →
  token_required_by (fields flag) = Some true →
  list_errors (create_schema true) info = [] →
  info !! "username" = Some (PStr uname) →
  info !! "email" = Some (PStr em) →
  info !! "token" = Some (PStr value) →
  qs_nonempty (λ u, iexact (Users.username u) uname) (users db) = false →
  qs_nonempty (λ u, iexact (Users.email u) em) (users db) = false →
  let outcome := create env info db in
  (qs_get (is_new_user_token value) (tokens db) = Raise DoesNotExist →
   outcome = (UserError ["no-such-token"], db))
  ∧ (∀ token_object,
       qs_get (is_new_user_token value) (tokens db) = Ok token_object →
       let exhausted := Tokens.exhausted (fields token_object) in
       let expired := Tokens.expired (now env) (fields token_object) in
       (exhausted = true → expired = false →
        outcome = (UserError ["token-exhausted"], db))
       ∧ (exhausted = false → expired = true →
          outcome = (UserError ["token-expired"], db))
       ∧ (exhausted = true → expired = true →
          outcome = (UserError ["token-exhausted"; "token-expired"], db))).
Proof.
  intros Hflag Hmode Hs Hu He Ht Huser Hemail outcome. unfold outcome.
  create_prefix Hflag Hmode Hs Hu He.
  create_no_collision Huser Hemail.
  rewrite (validated_lookup _ _ _ Ht). simpl.
  split.
  - by intros ->.
  - intros token_object ->. simpl.
    repeat split; intros -> ->; done.
Qed.

(** C3: when [create] gets as far as sending the mail and the sending
    fails, the call fails with [validation-email-failure], and the
    database then holds the new user, the password method and the
    validation-token method of that user and, when a token was required,
    the token marked as exhausted: it is the database that the same call
    leaves when the mail is sent and the user is returned. *)
Theorem create_mail_failure_keeps_records env info db flag token_required
    uname em pw ticket :
  qs_get (has_tag "new-users") (flags db) = Ok flag →
  token_required_by (fields flag) = Some token_required →
  list_errors (create_schema token_required) info = [] →
  info !! "username" = Some (PStr uname) →
  info !! "email" = Some (PStr em) →
  info !! "password" = Some (PStr pw) →
  qs_nonempty (λ u, iexact (Users.username u) uname) (users db) = false →
  qs_nonempty (λ u, iexact (Users.email u) em) (users db) = false →
  match ticket with
  | Some token_object =>
      token_required = true
      ∧ ∃ value,
          info !! "token" = Some (PStr value)
          ∧ qs_get (is_new_user_token value) (tokens db) = Ok token_object
          ∧ Tokens.exhausted (fields token_object) = false
          ∧ Tokens.expired (now env) (fields token_object) = false
  | None => token_required = false
  end →
  mail_sent env = false →
  ∃ db' uid u kp mp kv mv,
    create env info db = (UserError ["validation-email-failure"], db')
    ∧ create (mkEnv (now env) (gensalt env) (random_string env) true) info db
      = (Ok (Obj (Some uid) u), db')
    ∧ users db !! uid = None ∧ users db' !! uid = Some u
    ∧ Users.username u = uname ∧ Users.email u = em
    ∧ methods db !! kp = None ∧ methods db' !! kp = Some mp
    ∧ Methods.user mp = uid ∧ Methods.method mp = METHOD_PASSWORD
    ∧ Methods.password mp = hashpw pw (gensalt env)
    ∧ Methods.step mp = 1 ∧ Methods.status mp = METHOD_ACTIVE
    ∧ methods db !! kv = None ∧ methods db' !! kv = Some mv
    ∧ Methods.user mv = uid ∧ Methods.method mv = METHOD_VALIDATION_TOKEN
    ∧ Methods.token mv
      = sha1_hexdigest (em +:+ random_string env TOKEN_SALT_SIZE)
    ∧ Methods.step mv = 0 ∧ Methods.status mv = METHOD_ACTIVE
    ∧ ∀ token_object, ticket = Some token_object →
        ∃ kt, pk token_object = Some kt
              ∧ tokens db' !! kt
                = Some (pre_save false (now env)
                          (Tokens.set_exhausted true (fields token_object))).
Proof.
  intros Hflag Hmode Hs Hu He Hp Huser Hemail Hticket Hmail.
  destruct ticket as [token_object|].
  - destruct Hticket as (-> & value & Ht & Hget & Hexh & Hexp).
    destruct (qs_get_Ok _ _ _ Hget) as (kt & Hkt & Hlt & _).
    create_prefix Hflag Hmode Hs Hu He.
    create_no_collision Huser Hemail.
    rewrite (validated_lookup _ _ _ Ht). simpl.
    rewrite Hget. simpl. rewrite Hexh, Hexp. simpl.
    rewrite !lookup_delete_ne by done.
    rewrite (validated_lookup _ _ _ Hp), (validated_lookup _ _ _ He). simpl.
    rewrite Hmail.
    rewrite Hkt. simpl.
    rewrite !bool_decide_eq_true_2 by apply fresh_lookup.
    rewrite bool_decide_eq_false_2 by (by rewrite Hlt).
    set (uid := fresh (dom (users db))).
    set (kp := fresh (dom (methods db))).
    set (mp := pre_save true (now env) (Methods.set_password _ _)).
    set (kv := fresh (dom (<[kp:=mp]> (methods db)))).
    assert (Hkv : <[kp:=mp]> (methods db) !! kv = None) by apply fresh_lookup.
    apply lookup_insert_None in Hkv as [Hkv Hne].
    eexists _, uid, _, kp, mp, kv, _.
    split; [reflexivity|]. split; [reflexivity|]. simpl.
    rewrite !lookup_insert_eq, (lookup_insert_ne _ kv kp) by done.
    rewrite lookup_insert_eq.
    unfold new_user. simpl. rewrite !lookup_delete_ne by done.
    rewrite (validated_lookup _ _ _ Hu), (validated_lookup _ _ _ He).
    repeat split; try done; try apply fresh_lookup.
    intros ? [= <-]. exists kt. by rewrite lookup_insert_eq.
  - subst token_required.
    create_prefix Hflag Hmode Hs Hu He.
    create_no_collision Huser Hemail.
    rewrite !lookup_delete_ne by done.
    rewrite (validated_lookup _ _ _ Hp), (validated_lookup _ _ _ He). simpl.
    rewrite Hmail.
    rewrite !bool_decide_eq_true_2 by apply fresh_lookup.
    set (uid := fresh (dom (users db))).
    set (kp := fresh (dom (methods db))).
    set (mp := pre_save true (now env) (Methods.set_password _ _)).
    set (kv := fresh (dom (<[kp:=mp]> (methods db)))).
    assert (Hkv : <[kp:=mp]> (methods db) !! kv = None) by apply fresh_lookup.
    apply lookup_insert_None in Hkv as [Hkv Hne].
    eexists _, uid, _, kp, mp, kv, _.
    split; [reflexivity|]. split; [reflexivity|]. simpl.
    rewrite !lookup_insert_eq, (lookup_insert_ne _ kv kp) by done.
    rewrite lookup_insert_eq.
    unfold new_user. simpl. rewrite !lookup_delete_ne by done.
    rewrite (validated_lookup _ _ _ Hu), (validated_lookup _ _ _ He).
    repeat split; try done; apply fresh_lookup.
Qed.

End registration.

(** ** Account validation *)

Section validation.

Lemma validate_schema_ok value :
  VALID_TOKEN_REGEX value = true →
  run_schema validate_schema {[ "token" := PStr value ]}
    = Ok {[ "token" := value ]}.
Proof.
  intros Hvalid. unfold run_schema, list_errors.
  rewrite map_to_list_singleton. simpl.
  unfold value_errors, missing_errors. simpl. rewrite Hvalid. simpl.
  by rewrite omap_singleton_Some with (y := value).
Qed.

(** The path of [validate] on which the method is found. *)
Lemma validate_found env self uid value db method_object km :
  pk self = Some uid →
  value ≠ "" → VALID_TOKEN_REGEX value = true →
  qs_get (is_validation_method self value) (methods db) = Ok method_object →
  pk method_object = Some km →
  let m1 := used (now env) (fields method_object) in
  let u1 := pre_save (bool_decide (users db !! uid = None)) (now env)
              (Users.set_validated true (fields self)) in
  validate env self (PStr value) db =
    if Methods.expired (now env) (fields method_object)
    then (UserError ["token-expired"],
          mkDB (users db) (<[km:=m1]> (methods db)) (tokens db) (flags db))
    else (Ok (Obj (Some uid) u1),
          mkDB (<[uid:=u1]> (users db)) (<[km:=m1]> (methods db))
               (tokens db) (flags db)).
Proof.
  intros Hpk Hne Hvalid Hget Hkm m1 u1.
  destruct (qs_get_Ok _ _ _ Hget) as (km' & Hkm' & Hlm & _).
  assert (km' = km) as -> by congruence.
  unfold validate. rewrite Hpk. simpl.
  apply String.eqb_neq in Hne. rewrite Hne. simpl.
  munfold. rewrite (validate_schema_ok _ Hvalid).
  rewrite lookup_singleton_eq. rewrite Hget. simpl.
  rewrite Hkm. simpl.
  rewrite bool_decide_eq_false_2 by (by rewrite Hlm).
  fold (used (now env) (fields method_object)). fold m1.
  replace (Methods.expired (now env) m1)
    with (Methods.expired (now env) (fields method_object)) by done.
  destruct (Methods.expired (now env) (fields method_object)); [done|].
  done.
Qed.


(** C7: for a saved user and a token that is a non-empty string matching
    the pattern, [validate] fails with [invalid-token] when no active
    validation-token method of the user holds the token; when one is
    found it is stored inactive, and then the call fails with
    [token-expired] if the method has expired, leaving the users as they
    were, and otherwise stores the user with [validated] set.  Whenever
    the call does not succeed, the users are as they were. *)
Theorem validate_outcomes env self uid value db :
  pk self = Some uid →
  value ≠ "" → VALID_TOKEN_REGEX value = true →
  let outcome := validate env self (PStr value) db in
  (qs_get (is_validation_method self value) (methods db)
     = Raise DoesNotExist →
   outcome = (UserError ["invalid-token"], db))
  ∧ (∀ method_object,
       qs_get (is_validation_method self value) (methods db)
         = Ok method_object →
       ∃ km m1,
         pk method_object = Some km
         ∧ methods outcome.2 !! km = Some m1
         ∧ m1 = used (now env) (fields method_object)
         ∧ Methods.status m1 = METHOD_INACTIVE
         ∧ (Methods.expired (now env) (fields method_object) = true →
            outcome.1 = UserError ["token-expired"]
            ∧ users outcome.2 = users db)
         ∧ (Methods.expired (now env) (fields method_object) = false →
            ∃ u1, outcome.1 = Ok (Obj (Some uid) u1)
                  ∧ users outcome.2 = <[uid:=u1]> (users db)
                  ∧ Users.validated u1 = true
                  ∧ u1 = pre_save (bool_decide (users db !! uid = None))
                           (now env)
                           (Users.set_validated true (fields self))))
  ∧ ((∀ u, outcome.1 ≠ Ok u) → users outcome.2 = users db).
Proof.
  intros Hpk Hne Hvalid outcome. split; [|split].
  - intros Hnone. unfold outcome, validate. rewrite Hpk. simpl.
    apply String.eqb_neq in Hne. rewrite Hne. simpl.
    munfold. rewrite (validate_schema_ok _ Hvalid).
    rewrite lookup_singleton_eq. by rewrite Hnone.
  - intros method_object Hget.
    destruct (qs_get_Ok _ _ _ Hget) as (km & Hkm & _).
    pose proof (validate_found env self uid value db method_object km
                  Hpk Hne Hvalid Hget Hkm) as Hfound.
    simpl in Hfound. fold outcome in Hfound.
    exists km, (used (now env) (fields method_object)).
    destruct (Methods.expired (now env) (fields method_object));
      rewrite Hfound; simpl; rewrite lookup_insert_eq;
      repeat split; try done.
    intros _. eexists. repeat split; done.
  - unfold outcome, validate. rewrite Hpk. simpl.
    apply String.eqb_neq in Hne. rewrite Hne. simpl.
    munfold. rewrite (validate_schema_ok _ Hvalid).
    rewrite lookup_singleton_eq.
    destruct (qs_get _ (methods db)) as [method_object|errs|[]]; simpl;
      try done.
    destruct (Methods.expired _ _); simpl; [done|].
    intros Hfail. by edestruct Hfail.
Qed.

End validation.

(** ** At most one active recovery token *)

Section recovery_invariant.

Lemma active_recovery_of_true uid m :
  active_recovery_of uid m = true ↔
  Methods.user m = uid ∧ Methods.method m = METHOD_RECOVERY_TOKEN
  ∧ Methods.status m = METHOD_ACTIVE.
Proof.
  unfold active_recovery_of. rewrite !andb_true_iff.
  rewrite Pos.eqb_eq, !Z.eqb_eq. tauto.
Qed.

Lemma is_active_recovery_of self uid m :
  pk self = Some uid → is_active_recovery self m = active_recovery_of uid m.
Proof.
  intros Hpk. unfold is_active_recovery, active_recovery_of, owned_by.
  rewrite Hpk. f_equal. f_equal.
  destruct (Pos.eqb_spec (Methods.user m) uid) as [->|Hne].
  - by apply bool_decide_eq_true_2.
  - apply bool_decide_eq_false_2. congruence.
Qed.

Lemma no_new_recovery_refl t : no_new_recovery t t.
Proof. intros uid j m' Hj Hact. eauto. Qed.

Lemma no_new_recovery_trans t1 t2 t3 :
  no_new_recovery t1 t2 → no_new_recovery t2 t3 → no_new_recovery t1 t3.
Proof.
  intros H12 H23 uid j m3 Hj Hact.
  destruct (H23 uid j m3 Hj Hact) as (m2 & Hj2 & Hact2). eauto.
Qed.

Lemma no_new_recovery_insert t k a :
  (∀ uid, active_recovery_of uid a = true →
          ∃ m, t !! k = Some m ∧ active_recovery_of uid m = true) →
  no_new_recovery t (<[k:=a]> t).
Proof.
  intros Hside uid j m' Hj Hact.
  destruct (decide (j = k)) as [->|Hne].
  - rewrite lookup_insert_eq in Hj. simplify_eq. eauto.
  - rewrite lookup_insert_ne in Hj by done. eauto.
Qed.

Lemma no_new_recovery_delete P t : no_new_recovery t (qs_delete P t).
Proof.
  intros uid j m' Hj Hact. apply qs_delete_lookup in Hj as [Hj _]. eauto.
Qed.

Lemma no_new_recovery_update P t :
  no_new_recovery t (qs_update P (Methods.set_status METHOD_INACTIVE) t).
Proof.
  intros uid j m' Hj Hact. rewrite qs_update_lookup in Hj.
  destruct (t !! j) as [m|] eqn:Hm; simplify_eq/=.
  destruct (P m); [|eauto].
  apply active_recovery_of_true in Hact as (_ & _ & Hst). done.
Qed.

Lemma no_new_recovery_invariant db db' :
  no_new_recovery (methods db) (methods db') →
  one_active_recovery_at_most db → one_active_recovery_at_most db'.
Proof.
  intros Hnnr Hinv uid i j mi mj Hi Hj Hacti Hactj.
  destruct (Hnnr uid i mi Hi Hacti) as (mi0 & Hi0 & Hacti0).
  destruct (Hnnr uid j mj Hj Hactj) as (mj0 & Hj0 & Hactj0).
  eauto.
Qed.

Lemma or_user_error_Ok {A} errs (r : result A) a :
  or_user_error errs r = Ok a → r = Ok a.
Proof. by destruct r as [| |[]]. Qed.

Lemma not_recovery_active uid m :
  not_recovery m → active_recovery_of uid m = false.
Proof.
  intros Hnot. destruct (active_recovery_of uid m) eqn:Hact; [|done].
  apply active_recovery_of_true in Hact as (_ & Hkind & Hst).
  by destruct Hnot.
Qed.

Lemma not_recovery_pre_save add now m :
  not_recovery m → not_recovery (pre_save add now m).
Proof. done. Qed.

(** *** The rules of [keeps] *)

Lemma keeps_bind {A B} (m : M A) (f : A → M B) Q R :
  keeps m Q → (∀ a, Q a → keeps (f a) R) → keeps (bind m f) R.
Proof.
  intros Hm Hf db. unfold bind.
  destruct (Hm db) as [Hnnr HQ].
  destruct (m db) as [[a|errs|e] db1]; simpl in *;
    [|split; [done|by intros]..].
  destruct (Hf a (HQ a eq_refl) db1) as [Hnnr' HR].
  split; [|done]. by eapply no_new_recovery_trans.
Qed.

Lemma keeps_seq {A B} (m : M A) (k : M B) Q R :
  keeps m Q → keeps k R → keeps (m ;; k) R.
Proof. intros Hm Hk. apply (keeps_bind m (λ _, k) Q R); auto. Qed.

Lemma keeps_weaken {A} (m : M A) (Q Q' : A → Prop) :
  keeps m Q → (∀ a, Q a → Q' a) → keeps m Q'.
Proof. intros Hm HQ db. destruct (Hm db). split; auto. Qed.

(** A computation that leaves the database as it is. *)
Lemma keeps_read {A} (m : M A) Q :
  (∀ db, (m db).2 = db) → (∀ db a, (m db).1 = Ok a → Q a) → keeps m Q.
Proof.
  intros Hsame HQ db. rewrite Hsame.
  split; [apply no_new_recovery_refl|eauto].
Qed.

Lemma keeps_ret {A} (a : A) : keeps (mret a) (λ x, x = a).
Proof. apply keeps_read; [done|]. by intros db x [= <-]. Qed.

Lemma keeps_raise_user {A} errs Q : keeps (@raise_user A errs) Q.
Proof. by apply keeps_read. Qed.

Lemma keeps_raise {A} e Q : keeps (@raise A e) Q.
Proof. by apply keeps_read. Qed.

Lemma keeps_raise_if_any errs : keeps (raise_if_any errs) (λ _, True).
Proof. destruct errs; by apply keeps_read. Qed.

Lemma keeps_lift {A} (r : result A) : keeps (lift r) (λ _, True).
Proof. by apply keeps_read. Qed.

Lemma keeps_gets {A} (f : DB → A) : keeps (gets f) (λ _, True).
Proof. by apply keeps_read. Qed.

Lemma keeps_getitem d k : keeps (getitem d k) (λ _, True).
Proof. unfold getitem. destruct (d !! k); by apply keeps_read. Qed.

Lemma keeps_get_flag P : keeps (get_flag P) (λ _, True).
Proof. by apply keeps_read. Qed.

Lemma keeps_get_user_or errs P : keeps (get_user_or errs P) (λ _, True).
Proof. by apply keeps_read. Qed.

Lemma keeps_get_token_or errs P : keeps (get_token_or errs P) (λ _, True).
Proof. by apply keeps_read. Qed.

Lemma keeps_get_method P :
  keeps (get_method P) (λ o, P (fields o) = true).
Proof.
  apply keeps_read; [done|]. unfold get_method. simpl. intros db o Hget.
  by destruct (qs_get_Ok _ _ _ Hget) as (? & _ & _ & ? & _).
Qed.

Lemma keeps_get_method_or errs P :
  keeps (get_method_or errs P) (λ o, P (fields o) = true).
Proof.
  apply keeps_read; [done|]. unfold get_method_or. simpl. intros db o Hget.
  apply or_user_error_Ok in Hget.
  by destruct (qs_get_Ok _ _ _ Hget) as (? & _ & _ & ? & _).
Qed.

Lemma keeps_user_key o : keeps (user_key o) (λ _, True).
Proof. unfold user_key. destruct (pk o); by apply keeps_read. Qed.

Lemma keeps_save_user now o : keeps (save_user now o) (λ _, True).
Proof. intros db. split; [apply no_new_recovery_refl|done]. Qed.

Lemma keeps_save_token now o : keeps (save_token now o) (λ _, True).
Proof. intros db. split; [apply no_new_recovery_refl|done]. Qed.

Lemma keeps_save_method now o :
  not_recovery (fields o) →
  keeps (save_method now o) (λ o', not_recovery (fields o')).
Proof.
  intros Hnot db. unfold save_method, save_row. simpl. split.
  - apply no_new_recovery_insert. intros uid Hact.
    by rewrite not_recovery_active in Hact.
  - by intros o' [= <-].
Qed.

Lemma keeps_delete P :
  keeps (modify (with_methods (qs_delete P))) (λ _, True).
Proof. intros db. split; [apply no_new_recovery_delete|done]. Qed.

Lemma keeps_modify_users f : keeps (modify (with_users f)) (λ _, True).
Proof. intros db. split; [apply no_new_recovery_refl|done]. Qed.

Lemma keeps_deactivate_all P :
  keeps (modify (with_methods
                   (qs_update P (Methods.set_status METHOD_INACTIVE))))
        (λ _, True).
Proof. intros db. split; [apply no_new_recovery_update|done]. Qed.

Lemma not_recovery_set_last_used d m :
  not_recovery m → not_recovery (Methods.set_last_used d m).
Proof. done. Qed.

Lemma not_recovery_set_password p m :
  not_recovery m → not_recovery (Methods.set_password p m).
Proof. done. Qed.

Lemma not_recovery_kind m kind :
  Methods.method m = kind → kind ≠ METHOD_RECOVERY_TOKEN → not_recovery m.
Proof. intros <- Hne. by left. Qed.

Lemma is_password_method_kind o m :
  is_password_method o m = true → Methods.method m = METHOD_PASSWORD.
Proof.
  unfold is_password_method. intros HP.
  repeat (apply andb_true_iff in HP as [HP ?]). lia.
Qed.

Lemma is_oath_method_kind o m :
  is_oath_method o m = true → Methods.method m = METHOD_OATH_KEY.
Proof.
  unfold is_oath_method. intros HP.
  repeat (apply andb_true_iff in HP as [HP ?]). lia.
Qed.

Lemma is_own_password_kind (self : obj Users.t) m :
  owned_by self m && (Methods.method m =? METHOD_PASSWORD) = true →
  Methods.method m = METHOD_PASSWORD.
Proof. intros HP. apply andb_true_iff in HP as [_ HP]. lia. Qed.

Ltac not_recovery_solve :=
  first
    [ assumption
    | apply not_recovery_set_password;
      eapply not_recovery_kind;
        [eapply is_own_password_kind; eassumption|by compute]
    | apply not_recovery_set_last_used; assumption
    | right; by compute
    | left; by compute
    | apply not_recovery_set_last_used;
      eapply not_recovery_kind;
        [eapply is_password_method_kind; eassumption|by compute]
    | apply not_recovery_set_last_used;
      eapply not_recovery_kind;
        [eapply is_oath_method_kind; eassumption|by compute] ].

Ltac keeps_prim :=
  first
    [ apply keeps_raise_user | apply keeps_raise | apply keeps_raise_if_any
    | apply keeps_lift | apply keeps_gets | apply keeps_getitem
    | apply keeps_get_flag | apply keeps_get_user_or
    | apply keeps_get_token_or | apply keeps_get_method_or
    | apply keeps_get_method | apply keeps_user_key | apply keeps_save_user
    | apply keeps_save_token | apply keeps_delete | apply keeps_modify_users
    | apply keeps_deactivate_all | apply keeps_ret
    | apply keeps_save_method; simpl; not_recovery_solve ].

(** Runs through a computation: the lookups of methods and the saves of
    methods say what they return, the other steps need not. *)
Ltac keeps_solve :=
  cbv zeta;
  lazymatch goal with
  | |- keeps (bind _ _) _ =>
      eapply keeps_bind; [keeps_first|intros ? ?; cbv beta in *; keeps_solve]
  | |- keeps (mbind _ _) _ =>
      eapply keeps_bind; [keeps_first|intros ? ?; cbv beta in *; keeps_solve]
  | |- keeps (if ?b then _ else _) _ => destruct b; keeps_solve
  | |- keeps (match ?x with _ => _ end) _ => destruct x; keeps_solve
  | |- _ =>
      first [ assumption
            | keeps_prim
            | eapply keeps_weaken; [keeps_prim|by intros] ]
  end
with keeps_first :=
  first
    [ apply keeps_get_method_or
    | apply keeps_get_method
    | apply keeps_save_method; simpl; not_recovery_solve
    | refine (_ : keeps _ (λ _, True)); keeps_solve ].

Lemma keeps_login_password env upd info :
  keeps (login_password env upd info) (λ _, True).
Proof. unfold login_password. keeps_solve. Qed.

Lemma keeps_login_oath env token info :
  keeps (login_oath env token info) (λ _, True).
Proof.
  unfold login_oath. pose proof (keeps_login_password env false info).
  keeps_solve.
Qed.

Lemma keeps_login_recovery env info :
  keeps (login_recovery env info) (λ _, True).
Proof. unfold login_recovery. keeps_solve. Qed.

Lemma keeps_create env info : keeps (create env info) (λ _, True).
Proof. unfold create, check_token. keeps_solve. Qed.

Lemma keeps_delete_user self : keeps (delete_user self) (λ _, True).
Proof. unfold delete_user. keeps_solve. Qed.

Lemma keeps_deactivate env self : keeps (deactivate env self) (λ _, True).
Proof. unfold deactivate. keeps_solve. Qed.

Lemma keeps_activate env self : keeps (activate env self) (λ _, True).
Proof. unfold activate. keeps_solve. Qed.

Lemma keeps_generate_oath env self :
  keeps (generate_oath env self) (λ _, True).
Proof. unfold generate_oath. keeps_solve. Qed.

Lemma keeps_validate env self token :
  keeps (validate env self token) (λ _, True).
Proof. unfold validate. keeps_solve. Qed.

Lemma keeps_modify_password env self new check old :
  keeps (modify_password env self new check old) (λ _, True).
Proof. unfold modify_password, check_old_password. keeps_solve. Qed.

(** What [recover] leaves: the active recovery tokens of the user are
    set inactive, and the new token is added under a new key. *)
Lemma recover_eval env self uid db :
  pk self = Some uid →
  let t1 := qs_update (is_active_recovery self)
              (Methods.set_status METHOD_INACTIVE) (methods db) in
  recover env self db =
    (if mail_sent env then Ok () else UserError ["recovery-email-failure"],
     mkDB (users db)
          (<[fresh (dom t1) := new_recovery env self uid]> t1)
          (tokens db) (flags db)).
Proof.
  intros Hpk t1. unfold recover. rewrite Hpk. munfold. simpl.
  rewrite bool_decide_eq_true_2 by apply fresh_lookup.
  by destruct (mail_sent env).
Qed.

Lemma recover_invariant env self db :
  one_active_recovery_at_most db →
  one_active_recovery_at_most (recover env self db).2.
Proof.
  intros Hinv. destruct (pk self) as [uid|] eqn:Hpk;
    [|by unfold recover; rewrite Hpk].
  rewrite (recover_eval env self uid db Hpk). simpl.
  set (t1 := qs_update _ _ (methods db)).
  assert (Hinv1 : ∀ uid' i j mi mj,
            t1 !! i = Some mi → t1 !! j = Some mj →
            active_recovery_of uid' mi = true →
            active_recovery_of uid' mj = true → i = j).
  { intros uid' i j mi mj Hi Hj Hacti Hactj.
    destruct (no_new_recovery_update (is_active_recovery self) (methods db)
                uid' i mi Hi Hacti) as (mi0 & Hi0 & Hacti0).
    destruct (no_new_recovery_update (is_active_recovery self) (methods db)
                uid' j mj Hj Hactj) as (mj0 & Hj0 & Hactj0).
    eauto. }
  assert (Hnone : ∀ j m, t1 !! j = Some m →
                         active_recovery_of uid m = false).
  { intros j m Hj. unfold t1 in Hj. rewrite qs_update_lookup in Hj.
    destruct (methods db !! j) as [m0|] eqn:Hm0; simplify_eq/=.
    rewrite <- !(is_active_recovery_of self uid) by done.
    destruct (is_active_recovery self m0) eqn:Hact; [|done].
    rewrite (is_active_recovery_of self uid) by done.
    apply not_recovery_active. by right. }
  assert (Hnew : ∀ uid', active_recovery_of uid' (new_recovery env self uid)
                         = true → uid' = uid).
  { intros uid' Hact. by apply active_recovery_of_true in Hact as (<- & _). }
  intros uid' i j mi mj Hi Hj Hacti Hactj. simpl in Hi, Hj.
  destruct (decide (i = fresh (dom t1))) as [->|Hni];
    destruct (decide (j = fresh (dom t1))) as [->|Hnj]; [done|..].
  - rewrite lookup_insert_eq in Hi. rewrite lookup_insert_ne in Hj by done.
    simplify_eq. rewrite (Hnew uid' Hacti) in Hactj.
    by rewrite (Hnone j mj Hj) in Hactj.
  - rewrite lookup_insert_eq in Hj. rewrite lookup_insert_ne in Hi by done.
    simplify_eq. rewrite (Hnew uid' Hactj) in Hacti.
    by rewrite (Hnone i mi Hi) in Hacti.
  - rewrite lookup_insert_ne in Hi, Hj by done. eauto.
Qed.

Lemma run_invariant env c db :
  one_active_recovery_at_most db →
  one_active_recovery_at_most (run env c db).
Proof.
  destruct c; simpl; try apply recover_invariant;
    apply no_new_recovery_invariant;
    first [ apply keeps_create | apply keeps_login_password
          | apply keeps_login_oath | apply keeps_login_recovery
          | apply keeps_delete_user | apply keeps_deactivate
          | apply keeps_activate
          | apply keeps_modify_password | apply keeps_generate_oath
          | apply keeps_validate ].
Qed.

Lemma recover_deactivates self (t : gmap positive Methods.t) j m :
  qs_update (is_active_recovery self) (Methods.set_status METHOD_INACTIVE) t
    !! j = Some m →
  is_active_recovery self m = false.
Proof.
  intros Hj. rewrite qs_update_lookup in Hj.
  destruct (t !! j) as [m0|] eqn:Hm0; simplify_eq/=.
  destruct (is_active_recovery self m0) eqn:Hact; [|done].
  unfold is_active_recovery. simpl. by rewrite andb_false_r.
Qed.

(** C8: [recover], called on a saved user, sets every active
    recovery-token method of the user inactive and adds the new one, which
    is then the only active recovery-token method of the user; and every
    call of an operation, from a database in which no user has two
    active recovery-token methods, leaves such a database. *)
Theorem recover_one_active_token_at_most :
  (∀ env self uid db,
     pk self = Some uid →
     let db' := (recover env self db).2 in
     (∀ j m, methods db !! j = Some m →
             is_active_recovery self m = true →
             methods db' !! j
               = Some (Methods.set_status METHOD_INACTIVE m))
     ∧ (∃ kn, methods db !! kn = None
              ∧ qs_filter (is_active_recovery self) (methods db')
                = {[ kn := new_recovery env self uid ]})
     ∧ size (qs_filter (is_active_recovery self) (methods db')) = 1%nat)
  ∧ (∀ env c db,
       one_active_recovery_at_most db →
       one_active_recovery_at_most (run env c db)).
Proof.
  split; [|apply run_invariant].
  intros env self uid db Hpk db'. unfold db'.
  rewrite (recover_eval env self uid db Hpk). simpl.
  set (t1 := qs_update _ _ (methods db)).
  assert (Hfresh : t1 !! fresh (dom t1) = None) by apply fresh_lookup.
  assert (Hfilter : qs_filter (is_active_recovery self)
                      (<[fresh (dom t1):=new_recovery env self uid]> t1)
                    = {[ fresh (dom t1) := new_recovery env self uid ]}).
  { apply qs_filter_singleton.
    - apply lookup_insert_eq.
    - unfold is_active_recovery, owned_by. simpl. rewrite Hpk.
      by rewrite bool_decide_eq_true_2.
    - intros j b Hj Hact.
      destruct (decide (j = fresh (dom t1))) as [|Hne]; [done|].
      rewrite lookup_insert_ne in Hj by done.
      by rewrite (recover_deactivates self (methods db) j b Hj) in Hact. }
  split; [|split].
  - intros j m Hj Hact.
    assert (Hj1 : t1 !! j = Some (Methods.set_status METHOD_INACTIVE m)).
    { unfold t1. by rewrite qs_update_lookup, Hj; simpl; rewrite Hact. }
    rewrite lookup_insert_ne; [done|]. intros <-. congruence.
  - exists (fresh (dom t1)). split; [|done].
    unfold t1, qs_update in Hfresh. rewrite lookup_fmap in Hfresh.
    by destruct (methods db !! _).
  - rewrite Hfilter. apply map_size_singleton.
Qed.

End recovery_invariant.

(** ** Deactivation *)

Section deactivation.

Lemma deactivate_eval env self uid db :
  pk self = Some uid →
  let u1 := pre_save (bool_decide (users db !! uid = None)) (now env)
              (Users.set_active false (fields self)) in
  deactivate env self db =
    (Ok (Obj (Some uid) u1),
     mkDB (<[uid:=u1]> (users db)) (qs_delete (owned_by self) (methods db))
          (tokens db) (flags db)).
Proof.
  intros Hpk u1. unfold deactivate. rewrite Hpk. munfold. simpl.
  unfold owned_by. simpl. by rewrite Hpk.
Qed.

Lemma activate_eval env self uid db :
  pk self = Some uid →
  let u1 := pre_save (bool_decide (users db !! uid = None)) (now env)
              (Users.set_active true (fields self)) in
  activate env self db =
    (Ok (Obj (Some uid) u1),
     mkDB (<[uid:=u1]> (users db)) (methods db) (tokens db) (flags db)).
Proof.
  intros Hpk u1. unfold activate. rewrite Hpk. by munfold.
Qed.

Lemma owned_by_true self uid m :
  pk self = Some uid → owned_by self m = true ↔ Methods.user m = uid.
Proof.
  intros Hpk. unfold owned_by. rewrite Hpk, bool_decide_eq_true.
  split; congruence.
Qed.

(** A successful [login_password] has found an active password method of
    the user that it returns. *)
Lemma login_password_Ok env upd info db u db' :
  login_password env upd info db = (Ok u, db') →
  ∃ uid j m,
    pk u = Some uid ∧ methods db !! j = Some m ∧ Methods.user m = uid
    ∧ Methods.method m = METHOD_PASSWORD.
Proof.
  unfold login_password. munfold. simpl. intros Hlogin.
  repeat case_match; simplify_eq/=;
    repeat match goal with
           | H : or_user_error _ _ = Ok _ |- _ => apply or_user_error_Ok in H
           end.
  all: match goal with
       | Hu : qs_get _ (users _) = Ok ?uo,
         Hm : qs_get (is_password_method ?uo) _ = Ok ?mo |- _ =>
           destruct (qs_get_Ok _ _ _ Hu) as (uid & Hpk & _);
           destruct (qs_get_Ok _ _ _ Hm) as (j & _ & Hj & HP & _);
           exists uid, j, (fields mo)
       end.
  all: rewrite ?Hpk; simpl; repeat split; try done.
  all: try (by eapply is_password_method_kind).
  all: unfold is_password_method in HP;
    repeat (apply andb_true_iff in HP as [HP ?]);
    by apply (owned_by_true _ uid) in HP.
Qed.

(** C10: [deactivate], called on a saved user, stores the user with
    [active] unset and deletes the methods of that user and no others;
    after a later [activate] the user is active and still has no method,
    so that no [login_password] returns that user: with logins enabled
    and the user's name and a password given, it fails with
    [invalid-login]. *)
Theorem deactivate_deletes_methods env self uid db :
  pk self = Some uid →
  let db1 := (deactivate env self db).2 in
  (∃ u1, users db1 !! uid = Some u1 ∧ Users.active u1 = false)
  ∧ (∀ j m, methods db1 !! j = Some m ↔
            methods db !! j = Some m ∧ Methods.user m ≠ uid)
  ∧ ∀ env2 self2,
      pk self2 = Some uid →
      let db2 := (activate env2 self2 db1).2 in
      (∃ u2, users db2 !! uid = Some u2 ∧ Users.active u2 = true)
      ∧ (∀ j m, methods db2 !! j = Some m → Methods.user m ≠ uid)
      ∧ (∀ env3 upd info u,
           (login_password env3 upd info db2).1 = Ok u → pk u ≠ Some uid)
      ∧ (∀ env3 upd info flag uname pw user_object,
           qs_get (has_tag "user-login") (flags db2) = Ok flag →
           Data.setting (fields flag) ≠ 0 →
           list_errors login_schema info = [] →
           info !! "username" = Some (PStr uname) →
           info !! "password" = Some (PStr pw) →
           qs_get (λ u, iexact (Users.username u) uname) (users db2)
             = Ok user_object →
           pk user_object = Some uid →
           login_password env3 upd info db2
             = (UserError [INVALID_LOGIN], db2)).
Proof.
  intros Hpk db1. unfold db1.
  rewrite (deactivate_eval env self uid db Hpk). simpl.
  assert (Hdel : ∀ j m,
            qs_delete (owned_by self) (methods db) !! j = Some m ↔
            methods db !! j = Some m ∧ Methods.user m ≠ uid).
  { intros j m. rewrite qs_delete_lookup.
    rewrite <- (owned_by_true self uid m Hpk).
    by rewrite not_true_iff_false. }
  split; [|split; [done|]].
  { eexists. by rewrite lookup_insert_eq. }
  intros env2 self2 Hpk2.
  rewrite (activate_eval env2 self2 uid _ Hpk2). simpl.
  assert (Hnone : ∀ j m,
            qs_delete (owned_by self) (methods db) !! j = Some m →
            Methods.user m ≠ uid).
  { intros j m Hj. by apply Hdel in Hj as [_ ?]. }
  split; [|split; [done|split]].
  - eexists. split; [apply lookup_insert_eq|done].
  - intros env3 upd info u Hlogin Hu.
    destruct (login_password env3 upd info _) as [r db3] eqn:Hrun.
    simpl in Hlogin. subst r.
    apply login_password_Ok in Hrun as (uid' & j & m & Hpk' & Hj & Hm & _).
    simpl in Hj. assert (uid' = uid) as -> by congruence.
    by apply Hnone in Hj.
  - intros env3 upd info flag uname pw user_object Hflag Hset Hs Hu Hp Hget
      Hpku.
    rewrite (login_password_enabled env3 upd info _ flag uname pw)
      by done.
    simpl. rewrite Hget.
    destruct (qs_get_Ok _ _ _ Hget) as (k & Hk & Hlk & _).
    assert (k = uid) as -> by congruence.
    simpl in Hlk. rewrite lookup_insert_eq in Hlk.
    injection Hlk as <-. simpl.
    rewrite qs_get_none; [done|].
    simpl. intros j m Hj. apply Hnone in Hj.
    unfold is_password_method.
    destruct (owned_by user_object m) eqn:Hown; [|done].
    by apply (owned_by_true _ uid) in Hown.
Qed.

End deactivation.

(** ** Second-factor enrollment *)

Section oath.

Lemma generate_oath_eval env self uid db :
  pk self = Some uid →
  let t1 := qs_delete (is_oath_key self) (methods db) in
  generate_oath env self db =
    (Ok (b32encode (random_string env OATH_STRING_SIZE)),
     mkDB (users db) (<[fresh (dom t1) := new_oath env uid]> t1)
          (tokens db) (flags db)).
Proof.
  intros Hpk t1. unfold generate_oath. rewrite Hpk. munfold. simpl.
  by rewrite bool_decide_eq_true_2 by apply fresh_lookup.
Qed.

Lemma is_oath_key_new env self uid :
  pk self = Some uid → is_oath_key self (new_oath env uid) = true.
Proof.
  intros Hpk. unfold is_oath_key, owned_by. simpl. rewrite Hpk.
  by rewrite bool_decide_eq_true_2.
Qed.

(** After [generate_oath] the new method is the only OATH key of the
    user. *)
Lemma generate_oath_filter env self uid db :
  pk self = Some uid →
  let t1 := qs_delete (is_oath_key self) (methods db) in
  qs_filter (is_oath_key self) (methods (generate_oath env self db).2)
    = {[ fresh (dom t1) := new_oath env uid ]}.
Proof.
  intros Hpk t1. rewrite (generate_oath_eval env self uid db Hpk). simpl.
  fold t1. apply qs_filter_singleton.
  - apply lookup_insert_eq.
  - by apply is_oath_key_new.
  - intros j b Hj Hkey.
    destruct (decide (j = fresh (dom t1))) as [|Hne]; [done|].
    rewrite lookup_insert_ne in Hj by done.
    apply qs_delete_lookup in Hj as [_ Hj]. congruence.
Qed.

(** A successful [login_password] that does not update the access time
    writes the password method that it found, and nothing else. *)
Lemma login_password_false_Ok env info db u db' :
  login_password env false info db = (Ok u, db') →
  ∃ j m,
    methods db !! j = Some m ∧ Methods.method m = METHOD_PASSWORD
    ∧ db' = mkDB (users db)
              (<[j := pre_save false (now env)
                        (Methods.set_last_used (Some (now env)) m)]>
                 (methods db))
              (tokens db) (flags db).
Proof.
  unfold login_password. munfold. simpl. intros Hlogin.
  repeat case_match; simplify_eq/=;
    repeat match goal with
           | H : or_user_error _ _ = Ok _ |- _ => apply or_user_error_Ok in H
           end.
  match goal with
  | Hm : qs_get (is_password_method _) _ = Ok ?mo |- _ =>
      destruct (qs_get_Ok _ _ _ Hm) as (j & Hpk & Hj & HP & _);
      exists j, (fields mo)
  end.
  rewrite Hpk. simpl. rewrite bool_decide_eq_false_2 by (by rewrite Hj).
  repeat split; try done. by eapply is_password_method_kind.
Qed.

Lemma bind_Ok {A B} (m : M A) (f : A → M B) db a db1 :
  m db = (Ok a, db1) → bind m f db = f a db1.
Proof. unfold bind. by intros ->. Qed.

Lemma is_oath_method_key o m :
  is_oath_method o m = true →
  is_oath_key o m = true ∧ Methods.step m = 2
  ∧ Methods.status m = METHOD_ACTIVE.
Proof.
  unfold is_oath_method, is_oath_key. intros HP.
  repeat (apply andb_true_iff in HP as [HP ?]).
  repeat split; try lia. apply andb_true_iff. split; [done|lia].
Qed.

(** [login_oath] when the password is right and the user has one OATH
    key: a token other than the current code of that key is refused. *)
Lemma login_oath_wrong_code env token info db u db1 kn mo :
  login_password env false info db = (Ok u, db1) →
  qs_filter (is_oath_key u) (methods db) = {[ kn := mo ]} →
  Methods.step mo = 2 → Methods.status mo = METHOD_ACTIVE →
  same_code (get_totp (Methods.token mo) (now env)) token = false →
  login_oath env token info db = (UserError [INVALID_LOGIN], db1).
Proof.
  intros Hlogin Hfilter Hstep Hstatus Hcode.
  destruct (login_password_false_Ok _ _ _ _ _ Hlogin)
    as (j & m & Hj & Hkind & ->).
  assert (Hkn : methods db !! kn = Some mo ∧ is_oath_key u mo = true).
  { apply qs_filter_lookup. rewrite Hfilter. apply lookup_singleton_eq. }
  destruct Hkn as [Hkn Hkey].
  assert (Hne : j ≠ kn).
  { intros ->. unfold is_oath_key in Hkey.
    apply andb_true_iff in Hkey as [_ Hkey].
    assert (m = mo) as -> by congruence.
    rewrite Hkind in Hkey. done. }
  unfold login_oath. rewrite (bind_Ok _ _ _ _ _ Hlogin). munfold. simpl.
  rewrite (qs_get_unique _ _ kn mo).
  - simpl. by rewrite Hcode.
  - by rewrite lookup_insert_ne.
  - unfold is_oath_method. unfold is_oath_key in Hkey.
    rewrite Hkey, Hstep, Hstatus. done.
  - intros i b Hi Hb. apply is_oath_method_key in Hb as (Hb & _).
    destruct (decide (i = j)) as [->|Hij].
    + rewrite lookup_insert_eq in Hi. injection Hi as <-.
      unfold is_oath_key in Hb. simpl in Hb.
      apply andb_true_iff in Hb as [_ Hb]. rewrite Hkind in Hb. done.
    + rewrite lookup_insert_ne in Hi by done.
      assert (Hin : qs_filter (is_oath_key u) (methods db) !! i = Some b)
        by by apply qs_filter_lookup.
      rewrite Hfilter in Hin.
      by apply lookup_singleton_Some in Hin as [? _].
Qed.

Lemma is_oath_key_pk (o o' : obj Users.t) :
  pk o = pk o' → is_oath_key o = is_oath_key o'.
Proof. unfold is_oath_key, owned_by. by intros ->. Qed.

(** C9, as the code has it: [generate_oath], called on a saved user,
    deletes the OATH keys of the user, stores a new active one at step 2
    and returns its base32 secret, so that after a second call the only
    OATH key of the user holds the second secret; [login_oath] with a
    right password then refuses with [invalid-login] every token that is
    not the current code of the second secret, and so the current code of
    the first secret whenever the two codes differ. *)
Theorem generate_oath_replaces_key env1 env2 self uid db :
  pk self = Some uid →
  let first := generate_oath env1 self db in
  let second := generate_oath env2 self first.2 in
  let key1 := b32encode (random_string env1 OATH_STRING_SIZE) in
  let key2 := b32encode (random_string env2 OATH_STRING_SIZE) in
  first.1 = Ok key1 ∧ second.1 = Ok key2
  ∧ (∃ k1, qs_filter (is_oath_key self) (methods first.2)
           = {[ k1 := new_oath env1 uid ]})
  ∧ (∃ k2, qs_filter (is_oath_key self) (methods second.2)
           = {[ k2 := new_oath env2 uid ]})
  ∧ (∀ j m, methods second.2 !! j = Some m → is_oath_key self m = true →
            Methods.token m = key2 ∧ Methods.step m = 2
            ∧ Methods.status m = METHOD_ACTIVE)
  ∧ (∀ j m, methods db !! j = Some m → is_oath_key self m = false →
            methods second.2 !! j = Some m)
  ∧ (∀ env3 token info u db3,
       login_password env3 false info second.2 = (Ok u, db3) →
       pk u = Some uid →
       same_code (get_totp key2 (now env3)) token = false →
       login_oath env3 token info second.2
         = (UserError [INVALID_LOGIN], db3))
  ∧ (∀ env3 info u db3,
       login_password env3 false info second.2 = (Ok u, db3) →
       pk u = Some uid →
       get_totp key1 (now env3) ≠ get_totp key2 (now env3) →
       login_oath env3 (PInt (get_totp key1 (now env3))) info second.2
         = (UserError [INVALID_LOGIN], db3)).
Proof.
  intros Hpk first second key1 key2.
  pose proof (generate_oath_filter env1 self uid db Hpk) as Hf1.
  pose proof (generate_oath_filter env2 self uid first.2 Hpk) as Hf2.
  simpl in Hf1, Hf2. fold first in Hf1. fold second in Hf2.
  assert (Hwrong : ∀ env3 token info u db3,
            login_password env3 false info second.2 = (Ok u, db3) →
            pk u = Some uid →
            same_code (get_totp key2 (now env3)) token = false →
            login_oath env3 token info second.2
              = (UserError [INVALID_LOGIN], db3)).
  { intros env3 token info u db3 Hlogin Hpku Hcode.
    eapply (login_oath_wrong_code _ _ _ _ u db3 _ (new_oath env2 uid));
      [done| |done..].
    rewrite (is_oath_key_pk u self) by congruence. exact Hf2. }
  repeat split.
  - unfold first. by rewrite (generate_oath_eval env1 self uid db Hpk).
  - unfold second. by rewrite (generate_oath_eval env2 self uid _ Hpk).
  - eauto.
  - eauto.
  - assert (Hin : qs_filter (is_oath_key self) (methods second.2) !! j
                  = Some m) by by apply qs_filter_lookup.
    rewrite Hf2 in Hin. by apply lookup_singleton_Some in Hin as [_ <-].
  - assert (Hin : qs_filter (is_oath_key self) (methods second.2) !! j
                  = Some m) by by apply qs_filter_lookup.
    rewrite Hf2 in Hin. by apply lookup_singleton_Some in Hin as [_ <-].
  - assert (Hin : qs_filter (is_oath_key self) (methods second.2) !! j
                  = Some m) by by apply qs_filter_lookup.
    rewrite Hf2 in Hin. by apply lookup_singleton_Some in Hin as [_ <-].
  - intros j m Hj Hkey. unfold second, first.
    rewrite (generate_oath_eval env2 self uid _ Hpk).
    rewrite (generate_oath_eval env1 self uid db Hpk). simpl.
    set (t1 := qs_delete (is_oath_key self) (methods db)).
    set (t2 := <[fresh (dom t1) := new_oath env1 uid]> t1).
    set (t3 := qs_delete (is_oath_key self) t2).
    assert (H1 : t1 !! j = Some m) by by apply qs_delete_lookup.
    assert (H2 : t2 !! j = Some m).
    { unfold t2. rewrite lookup_insert_ne; [done|].
      intros <-. by rewrite fresh_lookup in H1. }
    assert (H3 : t3 !! j = Some m) by by apply qs_delete_lookup.
    rewrite lookup_insert_ne; [done|].
    intros <-. by rewrite fresh_lookup in H3.
  - exact Hwrong.
  - intros env3 info u db3 Hlogin Hpku Hne.
    apply (Hwrong env3 _ info u db3 Hlogin Hpku). simpl.
    by apply Z.eqb_neq.
Qed.

End oath.

(** ** Registration, continued *)

Section registration_success.

Lemma qs_nonempty_false_rows {A} (P : A → bool) (t : gmap positive A) :
  qs_nonempty P t = false → ∀ k a, t !! k = Some a → P a = false.
Proof.
  intros Hnone k a Hk. destruct (P a) eqn:HP; [|done].
  assert (qs_nonempty P t = true) by (apply qs_nonempty_true; eauto).
  congruence.
Qed.

Lemma iexact_lower a b b' : lower b' = lower b → iexact a b' = iexact a b.
Proof. unfold iexact. by intros ->. Qed.

Lemma iexact_same a b : lower a = lower b → iexact a b = true.
Proof. unfold iexact. intros ->. apply String.eqb_refl. Qed.

Ltac create_steps Hflag Hmode Hs Hu He Huser Hemail :=
  unfold create, check_token; munfold;
  rewrite Hflag; unfold token_required_by in Hmode;
  destruct (Data.setting (fields _) =? 0);
    [destruct (String.eqb (Data.data (fields _)) "token")|];
    simplify_eq; simpl;
  rewrite (run_schema_ok _ _ Hs); simpl;
  rewrite !(validated_lookup _ _ _ Hu); simpl;
  rewrite !(validated_lookup _ _ _ He); simpl;
  rewrite Huser, Hemail; simpl.

(** What a successful [create] returns and leaves. *)
Lemma create_success env info db flag token_required uname em pw ticket :
  qs_get (has_tag "new-users") (flags db) = Ok flag →
  token_required_by (fields flag) = Some token_required →
  list_errors (create_schema token_required) info = [] →
  info !! "username" = Some (PStr uname) →
  info !! "email" = Some (PStr em) →
  info !! "password" = Some (PStr pw) →
  qs_nonempty (λ u, iexact (Users.username u) uname) (users db) = false →
  qs_nonempty (λ u, iexact (Users.email u) em) (users db) = false →
  match ticket with
  | Some token_object =>
      token_required = true
      ∧ ∃ value,
          info !! "token" = Some (PStr value)
          ∧ qs_get (is_new_user_token value) (tokens db) = Ok token_object
          ∧ Tokens.exhausted (fields token_object) = false
          ∧ Tokens.expired (now env) (fields token_object) = false
  | None => token_required = false
  end →
  mail_sent env = true →
  create env info db =
    (Ok (Obj (Some (fresh (dom (users db))))
             (created_user env token_required info)),
     after_create env token_required info pw em ticket db).
Proof.
  intros Hflag Hmode Hs Hu He Hp Huser Hemail Hticket Hmail.
  unfold after_create, created_user, created_password, created_validation,
    user_fields.
  destruct ticket as [token_object|].
  - destruct Hticket as (-> & value & Ht & Hget & Hexh & Hexp).
    create_steps Hflag Hmode Hs Hu He Huser Hemail.
    rewrite (validated_lookup _ _ _ Ht). simpl.
    rewrite Hget. simpl. rewrite Hexh, Hexp. simpl.
    rewrite !lookup_delete_ne by done.
    rewrite (validated_lookup _ _ _ Hp), (validated_lookup _ _ _ He). simpl.
    rewrite Hmail.
    by rewrite !bool_decide_eq_true_2 by apply fresh_lookup.
  - subst token_required.
    create_steps Hflag Hmode Hs Hu He Huser Hemail.
    rewrite !lookup_delete_ne by done.
    rewrite (validated_lookup _ _ _ Hp), (validated_lookup _ _ _ He). simpl.
    rewrite Hmail.
    by rewrite !bool_decide_eq_true_2 by apply fresh_lookup.
Qed.

Lemma created_user_fields env token_required info uname em :
  info !! "username" = Some (PStr uname) →
  info !! "email" = Some (PStr em) →
  let u := created_user env token_required info in
  Users.username u = uname ∧ Users.email u = em ∧ Users.active u = true
  ∧ Users.validated u = false ∧ Users.user_type u = USER_STANDARD.
Proof.
  intros Hu He. unfold created_user, user_fields, new_user. simpl.
  destruct token_required; rewrite !lookup_delete_ne by done;
    by rewrite (validated_lookup _ _ _ Hu), (validated_lookup _ _ _ He).
Qed.

Lemma qs_get_several {A} (P : A → bool) (t : gmap positive A) i j a b :
  i ≠ j → t !! i = Some a → t !! j = Some b → P a = true → P b = true →
  qs_get P t = Raise MultipleObjectsReturned.
Proof.
  intros Hij Hi Hj Ha Hb. unfold qs_get.
  assert (Hini : (i, a) ∈ map_to_list (qs_filter P t))
    by by apply elem_of_map_to_list, qs_filter_lookup.
  assert (Hinj : (j, b) ∈ map_to_list (qs_filter P t))
    by by apply elem_of_map_to_list, qs_filter_lookup.
  destruct (map_to_list (qs_filter P t)) as [|[k c] [|? ?]]; [|exfalso|done].
  - by apply elem_of_nil in Hini.
  - apply list_elem_of_singleton in Hini, Hinj. congruence.
Qed.

(** X1: [user_exists] and [email_exists] compare without regard to the
    case of the letters, and never write: the answer is [False] when no
    user has the name (the address), [True] when exactly one has, and the
    exception [MultipleObjectsReturned] when two have. *)
Theorem exists_answers name db :
  let same_name := λ u, lower (Users.username u) = lower name in
  let same_email := λ u, lower (Users.email u) = lower name in
  ((∀ k u, users db !! k = Some u → ¬ same_name u) →
   user_exists name db = (Ok false, db))
  ∧ (∀ k u, users db !! k = Some u → same_name u →
            (∀ j b, users db !! j = Some b → same_name b → j = k) →
            user_exists name db = (Ok true, db))
  ∧ (∀ i j a b, i ≠ j → users db !! i = Some a → users db !! j = Some b →
                same_name a → same_name b →
                user_exists name db = (Raise MultipleObjectsReturned, db))
  ∧ ((∀ k u, users db !! k = Some u → ¬ same_email u) →
     email_exists name db = (Ok false, db))
  ∧ (∀ k u, users db !! k = Some u → same_email u →
            (∀ j b, users db !! j = Some b → same_email b → j = k) →
            email_exists name db = (Ok true, db))
  ∧ (∀ i j a b, i ≠ j → users db !! i = Some a → users db !! j = Some b →
                same_email a → same_email b →
                email_exists name db = (Raise MultipleObjectsReturned, db)).
Proof.
  intros same_name same_email. unfold user_exists, email_exists.
  repeat split.
  - intros Hnone. rewrite qs_get_none; [done|].
    intros k u Hk. apply String.eqb_neq. by apply (Hnone k).
  - intros k u Hk Hsame Huniq. rewrite (qs_get_unique _ _ k u); try done.
    + by apply String.eqb_eq.
    + intros j b Hj Hb. apply (Huniq j b Hj). by apply String.eqb_eq.
  - intros i j a b Hij Hi Hj Ha Hb.
    rewrite (qs_get_several _ _ i j a b); try done; by apply String.eqb_eq.
  - intros Hnone. rewrite qs_get_none; [done|].
    intros k u Hk. apply String.eqb_neq. by apply (Hnone k).
  - intros k u Hk Hsame Huniq. rewrite (qs_get_unique _ _ k u); try done.
    + by apply String.eqb_eq.
    + intros j b Hj Hb. apply (Huniq j b Hj). by apply String.eqb_eq.
  - intros i j a b Hij Hi Hj Ha Hb.
    rewrite (qs_get_several _ _ i j a b); try done; by apply String.eqb_eq.
Qed.

(** The user that [create] has stored is the only one with its name and
    the only one with its address. *)
Lemma created_user_found env tr info pw em' ticket db (P : Users.t → bool) :
  qs_nonempty P (users db) = false →
  P (created_user env tr info) = true →
  qs_get P (users (after_create env tr info pw em' ticket db))
    = Ok (Obj (Some (fresh (dom (users db)))) (created_user env tr info)).
Proof.
  intros Hnone HP. simpl. apply qs_get_unique; [apply lookup_insert_eq|done|].
  intros j b Hj Hb.
  destruct (decide (j = fresh (dom (users db)))) as [|Hne]; [done|].
  rewrite lookup_insert_ne in Hj by done.
  by rewrite (qs_nonempty_false_rows _ _ Hnone j b Hj) in Hb.
Qed.

(** X2: after a successful [create], [user_exists] answers [True] for the
    new name and [email_exists] for the new address, in any case of the
    letters. *)
Theorem create_then_exists env info db flag token_required uname em pw
    ticket uname' em' :
  qs_get (has_tag "new-users") (flags db) = Ok flag →
  token_required_by (fields flag) = Some token_required →
  list_errors (create_schema token_required) info = [] →
  info !! "username" = Some (PStr uname) →
  info !! "email" = Some (PStr em) →
  info !! "password" = Some (PStr pw) →
  qs_nonempty (λ u, iexact (Users.username u) uname) (users db) = false →
  qs_nonempty (λ u, iexact (Users.email u) em) (users db) = false →
  match ticket with
  | Some token_object =>
      token_required = true
      ∧ ∃ value,
          info !! "token" = Some (PStr value)
          ∧ qs_get (is_new_user_token value) (tokens db) = Ok token_object
          ∧ Tokens.exhausted (fields token_object) = false
          ∧ Tokens.expired (now env) (fields token_object) = false
  | None => token_required = false
  end →
  mail_sent env = true →
  lower uname' = lower uname → lower em' = lower em →
  let db' := (create env info db).2 in
  user_exists uname' db' = (Ok true, db')
  ∧ email_exists em' db' = (Ok true, db').
Proof.
  intros Hflag Hmode Hs Hu He Hp Huser Hemail Hticket Hmail Hlu Hle db'.
  unfold db'.
  rewrite (create_success env info db flag token_required uname em pw
             ticket) by done.
  destruct (created_user_fields env token_required info uname em Hu He)
    as (Hname & Haddr & _).
  unfold user_exists, email_exists. cbn [snd].
  rewrite (created_user_found env token_required info pw em ticket db).
  - rewrite (created_user_found env token_required info pw em ticket db);
      [done| |].
    + unfold iexact. rewrite Hle. exact Hemail.
    + rewrite Haddr. by apply iexact_same.
  - unfold iexact. rewrite Hlu. exact Huser.
  - rewrite Hname. by apply iexact_same.
Qed.

Lemma is_new_user_token_exhausted value add now b t :
  is_new_user_token value (pre_save add now (Tokens.set_exhausted b t))
    = is_new_user_token value t.
Proof. done. Qed.

(** X3: the token that a successful [create] has used is stored as
    exhausted, so that a second [create] with the same token, for another
    name and another address, fails with [token-exhausted] (and with
    [token-expired] after it when the token has expired by then), and
    writes nothing. *)
Theorem create_token_single_use env info db flag uname em pw token_object
    value env2 info2 uname2 em2 :
  qs_get (has_tag "new-users") (flags db) = Ok flag →
  token_required_by (fields flag) = Some true →
  list_errors (create_schema true) info = [] →
  info !! "username" = Some (PStr uname) →
  info !! "email" = Some (PStr em) →
  info !! "password" = Some (PStr pw) →
  info !! "token" = Some (PStr value) →
  qs_nonempty (λ u, iexact (Users.username u) uname) (users db) = false →
  qs_nonempty (λ u, iexact (Users.email u) em) (users db) = false →
  qs_get (is_new_user_token value) (tokens db) = Ok token_object →
  Tokens.exhausted (fields token_object) = false →
  Tokens.expired (now env) (fields token_object) = false →
  mail_sent env = true →
  list_errors (create_schema true) info2 = [] →
  info2 !! "username" = Some (PStr uname2) →
  info2 !! "email" = Some (PStr em2) →
  info2 !! "token" = Some (PStr value) →
  qs_nonempty (λ u, iexact (Users.username u) uname2) (users db) = false →
  qs_nonempty (λ u, iexact (Users.email u) em2) (users db) = false →
  lower uname2 ≠ lower uname → lower em2 ≠ lower em →
  let db' := (create env info db).2 in
  create env2 info2 db' =
    (UserError
       ("token-exhausted"
        :: if Tokens.expired (now env2) (fields token_object)
           then ["token-expired"] else []),
     db').
Proof.
  intros Hflag Hmode Hs Hu He Hp Ht Huser Hemail Hget Hexh Hexp Hmail Hs2
    Hu2 He2 Ht2 Huser2 Hemail2 Hnu Hne db'.
  unfold db'.
  rewrite (create_success env info db flag true uname em pw
             (Some token_object)) by eauto 10.
  cbn [snd].
  destruct (created_user_fields env true info uname em Hu He)
    as (Hname & Haddr & _).
  destruct (qs_get_Ok _ _ _ Hget) as (kt & Hkt & Hlt & _).
  set (db1 := after_create env true info pw em (Some token_object) db).
  assert (Hflag1 : qs_get (has_tag "new-users") (flags db1) = Ok flag)
    by done.
  assert (Huser1 : qs_nonempty (λ u, iexact (Users.username u) uname2)
                     (users db1) = false).
  { apply qs_nonempty_false. intros j b Hj. simpl in Hj.
    destruct (decide (j = fresh (dom (users db)))) as [->|Hj'].
    - rewrite lookup_insert_eq in Hj. injection Hj as <-.
      rewrite Hname. apply String.eqb_neq. congruence.
    - rewrite lookup_insert_ne in Hj by done.
      by apply (qs_nonempty_false_rows _ _ Huser2 j). }
  assert (Hemail1 : qs_nonempty (λ u, iexact (Users.email u) em2)
                      (users db1) = false).
  { apply qs_nonempty_false. intros j b Hj. simpl in Hj.
    destruct (decide (j = fresh (dom (users db)))) as [->|Hj'].
    - rewrite lookup_insert_eq in Hj. injection Hj as <-.
      rewrite Haddr. apply String.eqb_neq. congruence.
    - rewrite lookup_insert_ne in Hj by done.
      by apply (qs_nonempty_false_rows _ _ Hemail2 j). }
  assert (Hget1 : qs_get (is_new_user_token value) (tokens db1)
                  = Ok (Obj (Some kt)
                          (pre_save false (now env)
                             (Tokens.set_exhausted true
                                (fields token_object))))).
  { unfold db1, after_create. cbn [tokens]. unfold save_row. cbn [pk fields].
    rewrite Hkt. cbn [default snd]. unfold id.
    rewrite bool_decide_eq_false_2 by (by rewrite Hlt).
    apply (qs_get_insert_true _ _ token_object); [done..|].
    rewrite is_new_user_token_exhausted.
    by destruct (qs_get_Ok _ _ _ Hget) as (? & _ & _ & ? & _). }
  clearbody db1.
  create_steps Hflag1 Hmode Hs2 Hu2 He2 Huser1 Hemail1.
  rewrite (validated_lookup _ _ _ Ht2). simpl. rewrite Hget1. simpl.
  replace (Tokens.expired (now env2)
             (pre_save false (now env)
                (Tokens.set_exhausted true (fields token_object))))
    with (Tokens.expired (now env2) (fields token_object)) by done.
  by destruct (Tokens.expired (now env2) (fields token_object)).
Qed.



End registration_success.

(** ** Logins, continued *)

Section login_more.

(** What a successful [login_password] returns and leaves. *)
Lemma login_password_success env upd info db flag uname pw user_object
    method_object ku km :
  qs_get (has_tag "user-login") (flags db) = Ok flag →
  Data.setting (fields flag) ≠ 0 →
  list_errors login_schema info = [] →
  info !! "username" = Some (PStr uname) →
  info !! "password" = Some (PStr pw) →
  qs_get (λ u, iexact (Users.username u) uname) (users db)
    = Ok user_object →
  Users.active (fields user_object) = true →
  qs_get (is_password_method user_object) (methods db) = Ok method_object →
  hashpw pw (Methods.password (fields method_object))
    = Methods.password (fields method_object) →
  pk user_object = Some ku → pk method_object = Some km →
  let m1 := pre_save false (now env)
              (Methods.set_last_used (Some (now env))
                 (fields method_object)) in
  let u1 := pre_save false (now env)
              (Users.set_last_access (Some (now env))
                 (fields user_object)) in
  login_password env upd info db =
    if upd
    then (Ok (Obj (Some ku) u1),
          mkDB (<[ku:=u1]> (users db)) (<[km:=m1]> (methods db))
               (tokens db) (flags db))
    else (Ok user_object,
          mkDB (users db) (<[km:=m1]> (methods db)) (tokens db) (flags db)).
Proof.
  intros Hflag Hset Hs Hu Hp Hgu Hact Hgm Hhash Hku Hkm m1 u1.
  destruct (qs_get_Ok _ _ _ Hgu) as (ku' & Hku' & Hlu & _).
  destruct (qs_get_Ok _ _ _ Hgm) as (km' & Hkm' & Hlm & _).
  assert (ku' = ku) as -> by congruence.
  assert (km' = km) as -> by congruence.
  rewrite (login_password_enabled env upd info db flag uname pw) by done.
  rewrite Hgu, Hact, Hgm. cbv zeta. rewrite Hhash, String.eqb_refl.
  munfold. destruct upd; simpl; rewrite Hkm, ?Hku; simpl;
    by rewrite !bool_decide_eq_false_2 by (by rewrite ?Hlm, ?Hlu).
Qed.

(** What a [login_password] that returns a user has found. *)
Lemma login_password_inv env upd info db u db' :
  login_password env upd info db = (Ok u, db') →
  ∃ flag uname pw user_object method_object,
    qs_get (has_tag "user-login") (flags db) = Ok flag
    ∧ Data.setting (fields flag) ≠ 0
    ∧ info !! "username" = Some (PStr uname)
    ∧ info !! "password" = Some (PStr pw)
    ∧ qs_get (λ u, iexact (Users.username u) uname) (users db)
      = Ok user_object
    ∧ Users.active (fields user_object) = true
    ∧ qs_get (is_password_method user_object) (methods db)
      = Ok method_object
    ∧ hashpw pw (Methods.password (fields method_object))
      = Methods.password (fields method_object)
    ∧ pk u = pk user_object.
Proof.
  unfold login_password. munfold. simpl. intros Hlogin.
  repeat case_match; simplify_eq/=;
    repeat match goal with
           | H : or_user_error _ _ = Ok _ |- _ => apply or_user_error_Ok in H
           | H : negb _ = false |- _ => apply negb_false_iff in H
           | H : (_ =? _)%string = true |- _ => apply String.eqb_eq in H
           | H : (_ =? _) = false |- _ => apply Z.eqb_neq in H
           | H : run_schema _ _ = Ok _ |- _ =>
               unfold run_schema in H; case_match; simplify_eq
           | H : omap str_of _ !! _ = Some _ |- _ =>
               apply lookup_omap_Some in H as ([] & ? & ?); simplify_eq/=
           end.
  all: eexists _, _, _, _, _; repeat split; try eassumption; try done.
  all: match goal with
       | H : qs_get _ (users _) = Ok ?uo |- _ =>
           by destruct (qs_get_Ok _ _ _ H) as (? & -> & _)
       end.
Qed.

(** X5: [login_password] returns a user only when logins are enabled,
    the user of that name (in any case of the letters) is active, and the
    given password reproduces the hash of the user's active password
    method at step 1; the user that it returns is that user. *)
Theorem login_password_sound env upd info db u db' :
  login_password env upd info db = (Ok u, db') →
  ∃ flag uname pw user_object method_object,
    qs_get (has_tag "user-login") (flags db) = Ok flag
    ∧ Data.setting (fields flag) ≠ 0
    ∧ info !! "username" = Some (PStr uname)
    ∧ info !! "password" = Some (PStr pw)
    ∧ qs_get (λ u, iexact (Users.username u) uname) (users db)
      = Ok user_object
    ∧ Users.active (fields user_object) = true
    ∧ qs_get (is_password_method user_object) (methods db)
      = Ok method_object
    ∧ hashpw pw (Methods.password (fields method_object))
      = Methods.password (fields method_object)
    ∧ pk u = pk user_object.
Proof. apply login_password_inv. Qed.

(** X6: a successful [login_password] stamps the time of the call on
    [last_used] of the password method and, when [update_access] is set,
    on [last_access] of the user; with [update_access] unset the users
    are left as they were, and the tokens and the flags always. *)
Theorem login_password_stamps env upd info db u db' :
  login_password env upd info db = (Ok u, db') →
  ∃ ku km user_row method_row,
    pk u = Some ku
    ∧ users db !! ku = Some user_row
    ∧ methods db !! km = Some method_row
    ∧ methods db'
      = <[km := pre_save false (now env)
                  (Methods.set_last_used (Some (now env)) method_row)]>
          (methods db)
    ∧ tokens db' = tokens db ∧ flags db' = flags db
    ∧ (upd = false → users db' = users db ∧ fields u = user_row)
    ∧ (upd = true →
       fields u = pre_save false (now env)
                    (Users.set_last_access (Some (now env)) user_row)
       ∧ users db' = <[ku := fields u]> (users db)).
Proof.
  intros Hlogin.
  destruct (login_password_inv _ _ _ _ _ _ Hlogin)
    as (flag & uname & pw & uo & mo & Hflag & Hset & Hu & Hp & Hgu & Hact
        & Hgm & Hhash & Hpk).
  destruct (qs_get_Ok _ _ _ Hgu) as (ku & Hku & Hlu & _).
  destruct (qs_get_Ok _ _ _ Hgm) as (km & Hkm & Hlm & _).
  assert (Hs : list_errors login_schema info = []).
  { revert Hlogin. unfold login_password. munfold. rewrite Hflag. simpl.
    rewrite (proj2 (Z.eqb_neq _ _) Hset). unfold run_schema.
    by destruct (list_errors login_schema info). }
  rewrite (login_password_success env upd info db flag uname pw uo mo ku km)
    in Hlogin by done.
  exists ku, km, (fields uo), (fields mo).
  destruct upd; simplify_eq/=; repeat split; try done; congruence.
Qed.

(** X7: a [login_password] that does not return a user writes nothing. *)
Theorem login_password_failure_writes_nothing env upd info db :
  (∀ u, (login_password env upd info db).1 ≠ Ok u) →
  (login_password env upd info db).2 = db.
Proof.
  unfold login_password. munfold. simpl. intros Hfail.
  repeat case_match; simplify_eq/=; try done.
  all: by edestruct Hfail.
Qed.

(** X8: with the flag [user-login] at 0, [login_password] and
    [login_oath] fail with the single error [login-disabled], whatever
    the fields and the token are, and write nothing. *)
Theorem login_disabled env upd token info db flag :
  qs_get (has_tag "user-login") (flags db) = Ok flag →
  Data.setting (fields flag) = 0 →
  login_password env upd info db = (UserError ["login-disabled"], db)
  ∧ login_oath env token info db = (UserError ["login-disabled"], db).
Proof.
  intros Hflag Hset.
  assert (Hpw : ∀ upd', login_password env upd' info db
                        = (UserError ["login-disabled"], db)).
  { intros upd'. unfold login_password. munfold. by rewrite Hflag, Hset. }
  split; [apply Hpw|].
  unfold login_oath, bind. by rewrite Hpw.
Qed.

Lemma qs_get_insert_other {A} (P : A → bool) (t : gmap positive A) k a a' :
  t !! k = Some a → P a = false → P a' = false →
  qs_get P (<[k:=a']> t) = qs_get P t.
Proof.
  intros Hk Ha Ha'. unfold qs_get.
  replace (qs_filter P (<[k:=a']> t)) with (qs_filter P t); [done|].
  apply map_eq. intros j.
  destruct (qs_filter P t !! j) as [b|] eqn:Hb; symmetry.
  - apply qs_filter_lookup in Hb as [Hb HP]. apply qs_filter_lookup.
    split; [|done]. rewrite lookup_insert_ne; [done|]. congruence.
  - apply eq_None_not_Some. intros [b' Hb'].
    apply qs_filter_lookup in Hb' as [Hb' HP].
    destruct (decide (k = j)) as [->|Hne].
    + rewrite lookup_insert_eq in Hb'. congruence.
    + rewrite lookup_insert_ne in Hb' by done.
      assert (qs_filter P t !! j = Some b') by by apply qs_filter_lookup.
      congruence.
Qed.

Lemma is_oath_method_not_password o m :
  Methods.method m = METHOD_PASSWORD → is_oath_method o m = false.
Proof.
  unfold is_oath_method. intros ->.
  by rewrite andb_false_r.
Qed.

(** [login_oath] once the password is right: the lookup of the OATH key
    sees the methods as they were before the password step. *)
Lemma login_oath_second_step env token info db u db1 :
  login_password env false info db = (Ok u, db1) →
  login_oath env token info db =
    match qs_get (is_oath_method u) (methods db) with
    | Ok method_object =>
        if same_code (get_totp (Methods.token (fields method_object))
                        (now env)) token
        then
          bind (save_method (now env)
                  (Obj (pk method_object)
                       (Methods.set_last_used (Some (now env))
                          (fields method_object))))
               (λ _, save_user (now env)
                       (Obj (pk u)
                            (Users.set_last_access (Some (now env))
                               (fields u)))) db1
        else (UserError [INVALID_LOGIN], db1)
    | Raise DoesNotExist => (UserError [INVALID_LOGIN], db1)
    | Raise e => (Raise e, db1)
    | UserError errs => (UserError errs, db1)
    end.
Proof.
  intros Hlogin.
  destruct (login_password_false_Ok _ _ _ _ _ Hlogin)
    as (j & m & Hj & Hkind & Hdb1).
  unfold login_oath. rewrite (bind_Ok _ _ _ _ _ Hlogin).
  unfold bind at 1, get_method_or.
  replace (qs_get (is_oath_method u) (methods db1))
    with (qs_get (is_oath_method u) (methods db)).
  - destruct (qs_get (is_oath_method u) (methods db)) as [mo|errs|[]];
      simpl; try done.
    by destruct (same_code _ _).
  - rewrite Hdb1. simpl. symmetry.
    apply (qs_get_insert_other _ _ j m); [done|..];
      by apply is_oath_method_not_password.
Qed.

(** X9: when the password is right, [login_oath] fails with
    [invalid-login] if the user has no active OATH key at step 2 or if
    the token is not the current code of that key; the access time of
    the user is then not stamped (the users are as they were), while the
    password method keeps the stamp of the password step. *)
Theorem login_oath_refusals env token info db u db1 :
  login_password env false info db = (Ok u, db1) →
  users db1 = users db
  ∧ (∃ km m, methods db !! km = Some m
             ∧ Methods.method m = METHOD_PASSWORD
             ∧ methods db1 !! km
               = Some (pre_save false (now env)
                         (Methods.set_last_used (Some (now env)) m)))
  ∧ (qs_get (is_oath_method u) (methods db) = Raise DoesNotExist →
     login_oath env token info db = (UserError [INVALID_LOGIN], db1))
  ∧ (∀ method_object,
       qs_get (is_oath_method u) (methods db) = Ok method_object →
       same_code (get_totp (Methods.token (fields method_object)) (now env))
         token = false →
       login_oath env token info db = (UserError [INVALID_LOGIN], db1)).
Proof.
  intros Hlogin.
  pose proof (login_oath_second_step env token info db u db1 Hlogin) as Hoath.
  destruct (login_password_false_Ok _ _ _ _ _ Hlogin)
    as (j & m & Hj & Hkind & Hdb1).
  repeat split.
  - by rewrite Hdb1.
  - exists j, m. rewrite Hdb1. simpl. by rewrite lookup_insert_eq.
  - intros Hnone. by rewrite Hoath, Hnone.
  - intros mo Hget Hcode. by rewrite Hoath, Hget, Hcode.
Qed.

(** [login_oath] with the right password and the right code. *)
Lemma login_oath_right_code env info db u db1 method_object :
  login_password env false info db = (Ok u, db1) →
  qs_get (is_oath_method u) (methods db) = Ok method_object →
  let code := get_totp (Methods.token (fields method_object)) (now env) in
  ∃ ku ko u2 db2,
    login_oath env (PInt code) info db = (Ok (Obj (Some ku) u2), db2)
    ∧ pk u = Some ku ∧ pk method_object = Some ko
    ∧ u2 = pre_save false (now env)
             (Users.set_last_access (Some (now env)) (fields u))
    ∧ users db2 = <[ku := u2]> (users db)
    ∧ methods db2
      = <[ko := pre_save false (now env)
                  (Methods.set_last_used (Some (now env))
                     (fields method_object))]> (methods db1).
Proof.
  intros Hlogin Hget code.
  pose proof (login_oath_second_step env (PInt code) info db u db1 Hlogin)
    as Hoath.
  destruct (login_password_inv _ _ _ _ _ _ Hlogin)
    as (flag & uname & pw & uo & mo & _ & _ & _ & _ & Hgu & _ & _ & _ & Hpk).
  destruct (qs_get_Ok _ _ _ Hgu) as (ku & Hku & Hlu & _).
  destruct (qs_get_Ok _ _ _ Hget) as (ko & Hko & Hlo & HPo & _).
  destruct (login_password_false_Ok _ _ _ _ _ Hlogin)
    as (j & m & Hj & Hkind & Hdb1).
  assert (Hjo : j ≠ ko).
  { intros ->. assert (m = fields method_object) as -> by congruence.
    by rewrite (is_oath_method_not_password u _ Hkind) in HPo. }
  rewrite Hoath, Hget. simpl. unfold code. rewrite Z.eqb_refl.
  munfold. simpl. rewrite Hko, Hpk, Hku. simpl.
  rewrite Hdb1. simpl.
  rewrite lookup_insert_ne by done.
  rewrite !bool_decide_eq_false_2 by (by rewrite ?Hlo, ?Hlu).
  eexists ku, ko, _, _. repeat split; try done.
Qed.

(** X10: when the password is right and the token is the current code of
    the user's active OATH key, [login_oath] returns the user and stamps
    the time of the call on [last_used] of the key and on [last_access]
    of the user. *)
Theorem login_oath_accepts env info db u db1 method_object :
  login_password env false info db = (Ok u, db1) →
  qs_get (is_oath_method u) (methods db) = Ok method_object →
  let code := get_totp (Methods.token (fields method_object)) (now env) in
  ∃ ku ko u2 db2,
    login_oath env (PInt code) info db = (Ok (Obj (Some ku) u2), db2)
    ∧ pk u = Some ku ∧ pk method_object = Some ko
    ∧ u2 = pre_save false (now env)
             (Users.set_last_access (Some (now env)) (fields u))
    ∧ users db2 = <[ku := u2]> (users db)
    ∧ methods db2
      = <[ko := pre_save false (now env)
                  (Methods.set_last_used (Some (now env))
                     (fields method_object))]> (methods db1).
Proof. apply login_oath_right_code. Qed.

End login_more.

(** ** From registration to the first login *)

Section after_registration.

(** In the database that [create] leaves, the methods of the new user
    are the two that [create] has stored. *)
Lemma created_methods env tr info pw em ticket db :
  methods_have_users db →
  let db1 := after_create env tr info pw em ticket db in
  let uid := fresh (dom (users db)) in
  ∃ kp kv,
    kp ≠ kv
    ∧ methods db1 !! kp = Some (created_password env uid pw)
    ∧ methods db1 !! kv = Some (created_validation env uid em)
    ∧ ∀ j b, methods db1 !! j = Some b → Methods.user b = uid →
             j = kp ∨ j = kv.
Proof.
  intros Hfk db1 uid. unfold db1, after_create. cbn [methods]. fold uid.
  set (kp := fresh (dom (methods db))).
  set (mp := created_password env uid pw).
  set (kv := fresh (dom (<[kp:=mp]> (methods db)))).
  assert (Hkv : <[kp:=mp]> (methods db) !! kv = None) by apply fresh_lookup.
  apply lookup_insert_None in Hkv as [Hkv Hne].
  exists kp, kv. repeat split; [done| | |].
  - rewrite lookup_insert_ne by done. apply lookup_insert_eq.
  - apply lookup_insert_eq.
  - intros j b Hj Hb.
    destruct (decide (j = kv)) as [|Hjv]; [by right|].
    destruct (decide (j = kp)) as [|Hjp]; [by left|].
    rewrite !lookup_insert_ne in Hj by done.
    destruct (Hfk j b Hj) as [u Hu]. rewrite Hb in Hu.
    unfold uid in Hu. by rewrite fresh_lookup in Hu.
Qed.

(** X11: after a successful [create], in a database in which every
    method belonged to a user, [login_password] with the new name, in any
    case of the letters, and the password of the registration returns the
    new user, provided that the hash function reproduces a hash from the
    password and the hash, as bcrypt does; a password that does not
    reproduce the stored hash is refused with [invalid-login]. *)
Theorem create_then_login env info db flag token_required uname em pw
    ticket env2 upd info2 login_flag uname2 pw2 :
  qs_get (has_tag "new-users") (flags db) = Ok flag →
  token_required_by (fields flag) = Some token_required →
  list_errors (create_schema token_required) info = [] →
  info !! "username" = Some (PStr uname) →
  info !! "email" = Some (PStr em) →
  info !! "password" = Some (PStr pw) →
  qs_nonempty (λ u, iexact (Users.username u) uname) (users db) = false →
  qs_nonempty (λ u, iexact (Users.email u) em) (users db) = false →
  match ticket with
  | Some token_object =>
      token_required = true
      ∧ ∃ value,
          info !! "token" = Some (PStr value)
          ∧ qs_get (is_new_user_token value) (tokens db) = Ok token_object
          ∧ Tokens.exhausted (fields token_object) = false
          ∧ Tokens.expired (now env) (fields token_object) = false
  | None => token_required = false
  end →
  mail_sent env = true →
  methods_have_users db →
  qs_get (has_tag "user-login") (flags db) = Ok login_flag →
  Data.setting (fields login_flag) ≠ 0 →
  list_errors login_schema info2 = [] →
  info2 !! "username" = Some (PStr uname2) →
  info2 !! "password" = Some (PStr pw2) →
  lower uname2 = lower uname →
  let db1 := (create env info db).2 in
  let stored := hashpw pw (gensalt env) in
  (hashpw pw2 stored = stored →
   ∃ u db2, login_password env2 upd info2 db1 = (Ok u, db2)
            ∧ pk u = Some (fresh (dom (users db)))
            ∧ Users.username (fields u) = uname)
  ∧ (hashpw pw2 stored ≠ stored →
     login_password env2 upd info2 db1 = (UserError [INVALID_LOGIN], db1)).
Proof.
  intros Hflag Hmode Hs Hu He Hp Huser Hemail Hticket Hmail Hfk Hlflag
    Hlset Hs2 Hu2 Hp2 Hlower db1 stored.
  unfold db1.
  rewrite (create_success env info db flag token_required uname em pw
             ticket) by done.
  cbn [snd].
  destruct (created_user_fields env token_required info uname em Hu He)
    as (Hname & _ & Hactive & _).
  destruct (created_methods env token_required info pw em ticket db Hfk)
    as (kp & kv & Hne & Hkp & Hkv & Honly).
  set (uid := fresh (dom (users db))) in *.
  set (cu := created_user env token_required info) in *.
  assert (Hgu : qs_get (λ u, iexact (Users.username u) uname2)
                  (users (after_create env token_required info pw em ticket
                            db))
                = Ok (Obj (Some uid) cu)).
  { apply created_user_found.
    - unfold iexact. rewrite Hlower. exact Huser.
    - apply iexact_same. rewrite Hlower. f_equal. exact Hname. }
  assert (Hgm : qs_get (is_password_method (Obj (Some uid) cu))
                  (methods (after_create env token_required info pw em
                              ticket db))
                = Ok (Obj (Some kp) (created_password env uid pw))).
  { apply qs_get_unique; [done| |].
    - unfold is_password_method, owned_by. simpl.
      by rewrite bool_decide_eq_true_2.
    - intros j b Hj Hb. unfold is_password_method in Hb.
      repeat (apply andb_true_iff in Hb as [Hb ?]).
      apply (owned_by_true _ uid) in Hb; [|done].
      destruct (Honly j b Hj Hb) as [ | -> ]; [done|].
      assert (b = created_validation env uid em) as -> by congruence.
      done. }
  set (db' := after_create _ _ _ _ _ _ _) in *.
  assert (Hlflag' : qs_get (has_tag "user-login") (flags db') = Ok login_flag)
    by done.
  split.
  - intros Hhash.
    rewrite (login_password_success env2 upd info2 db' login_flag uname2 pw2
               (Obj (Some uid) cu) (Obj (Some kp) _) uid kp) by done.
    destruct upd; eexists _, _; repeat split; done.
  - intros Hhash.
    rewrite (login_password_enabled env2 upd info2 db' login_flag uname2 pw2)
      by done.
    rewrite Hgu. cbn [fields]. rewrite Hactive, Hgm. simpl.
    apply String.eqb_neq in Hhash. fold stored. by rewrite Hhash.
Qed.

Lemma is_validation_method_pk (o o' : obj Users.t) value :
  pk o = pk o' → is_validation_method o value = is_validation_method o' value.
Proof. unfold is_validation_method, owned_by. by intros ->. Qed.


End after_registration.

(** ** Account validation, continued *)

Section validation_more.

(** X13: the token of a validation is good for one call: after a
    [validate] that found the method, whether it had expired or not, a
    second [validate] of the same user with the same token fails with
    [invalid-token] and writes nothing. *)
Theorem validate_single_use env self uid value db method_object env2 self2 :
  pk self = Some uid →
  value ≠ "" → VALID_TOKEN_REGEX value = true →
  qs_get (is_validation_method self value) (methods db) = Ok method_object →
  pk self2 = Some uid →
  let db1 := (validate env self (PStr value) db).2 in
  validate env2 self2 (PStr value) db1 = (UserError ["invalid-token"], db1).
Proof.
  intros Hpk Hne Hvalid Hget Hpk2 db1.
  destruct (qs_get_Ok _ _ _ Hget) as (km & Hkm & _).
  assert (Hmethods : methods db1
                     = <[km := used (now env) (fields method_object)]>
                         (methods db)).
  { unfold db1.
    rewrite (validate_found env self uid value db method_object km) by done.
    by destruct (Methods.expired _ _). }
  clearbody db1.
  unfold validate. rewrite Hpk2. simpl.
  apply String.eqb_neq in Hne. rewrite Hne. simpl.
  munfold. rewrite (validate_schema_ok _ Hvalid).
  rewrite lookup_singleton_eq. rewrite qs_get_none; [done|].
  intros j b Hj. rewrite Hmethods in Hj.
  rewrite (is_validation_method_pk self2 self) by congruence.
  eapply (qs_get_insert_false _ _ _ km); try done.
  unfold is_validation_method. simpl. by rewrite andb_false_r.
Qed.

(** X14: [validate] on a saved user answers a missing token ([None], the
    empty string) with [token-required], and a token that is not a string
    or that the pattern of tokens refuses with [invalid-token]; it writes
    nothing in either case. *)
Theorem validate_bad_token env self uid token db :
  pk self = Some uid →
  (truthy token = false →
   validate env self token db = (UserError ["token-required"], db))
  ∧ (truthy token = true →
     match token with
     | PStr s => VALID_TOKEN_REGEX s = false
     | _ => True
     end →
     validate env self token db = (UserError ["invalid-token"], db)).
Proof.
  intros Hpk. unfold validate. rewrite Hpk. split.
  - by intros ->.
  - intros -> Hbad. simpl. munfold.
    unfold run_schema, list_errors. rewrite map_to_list_singleton. simpl.
    unfold value_errors. simpl.
    destruct token as [s| |]; simpl; by rewrite ?Hbad.
Qed.

End validation_more.

(** ** Instances that were never saved *)

(** X15: every operation of a user raises [RuntimeError] and writes
    nothing when the instance has no primary key. *)
Theorem unsaved_user_is_refused env self db :
  pk self = None →
  (∃ msg, delete_user self db = (Raise (RuntimeError msg), db))
  ∧ (∃ msg, deactivate env self db = (Raise (RuntimeError msg), db))
  ∧ (∃ msg, activate env self db = (Raise (RuntimeError msg), db))
  ∧ (∀ info, ∃ msg,
       modify_info env self info db = (Raise (RuntimeError msg), db))
  ∧ (∀ new check old, ∃ msg,
       modify_password env self new check old db
       = (Raise (RuntimeError msg), db))
  ∧ (∃ msg, recover env self db = (Raise (RuntimeError msg), db))
  ∧ (∃ msg, generate_oath env self db = (Raise (RuntimeError msg), db))
  ∧ (∀ token, ∃ msg,
       validate env self token db = (Raise (RuntimeError msg), db))
  ∧ (∃ msg, set_admin env self db = (Raise (RuntimeError msg), db))
  ∧ (∃ msg, set_standard env self db = (Raise (RuntimeError msg), db)).
Proof.
  intros Hpk.
  unfold delete_user, deactivate, activate, modify_info, modify_password,
    recover, generate_oath, validate, set_admin, set_standard.
  rewrite Hpk. repeat split; intros; by eexists.
Qed.

(** ** From a recovery token to the recovery login *)

Section recovery_round_trip.

Lemma is_recovery_method_active o value m :
  is_recovery_method o value m = true → is_active_recovery o m = true.
Proof.
  unfold is_recovery_method, is_active_recovery. intros HP.
  by apply andb_true_iff in HP as [-> _].
Qed.

(** X16: the token that [recover] has stored for a user, whether or not
    its mail could be sent, lets one [login_recovery] of that user
    through until five hours after the call of [recover], the last
    instant included, and is refused with [invalid-recovery] after
    that. *)
Theorem recover_then_login_recovery env self uid db env2 info uname
    user_object :
  pk self = Some uid →
  let token := sha1_hexdigest (Users.email (fields self)
                               +:+ random_string env TOKEN_SALT_SIZE) in
  let db1 := (recover env self db).2 in
  list_errors recovery_schema info = [] →
  info !! "username" = Some (PStr uname) →
  info !! "token" = Some (PStr token) →
  qs_get (λ u, iexact (Users.username u) uname && Users.active u) (users db)
    = Ok user_object →
  pk user_object = Some uid →
  (now env2 ≤ now env + VALIDATION_TIME →
   ∃ u db2, login_recovery env2 info db1 = (Ok u, db2)
            ∧ pk u = Some uid
            ∧ Users.last_access (fields u) = Some (now env2))
  ∧ (now env + VALIDATION_TIME < now env2 →
     (login_recovery env2 info db1).1 = UserError [INVALID_RECOVERY]).
Proof.
  intros Hpk token db1 Hs Hu Ht Hgu Hpku. unfold db1.
  rewrite (recover_eval env self uid db Hpk). cbn [snd].
  set (t1 := qs_update _ _ (methods db)).
  set (kn := fresh (dom t1)).
  set (db' := mkDB _ _ _ _).
  assert (Hgm : qs_get (is_recovery_method user_object token) (methods db')
                = Ok (Obj (Some kn) (new_recovery env self uid))).
  { apply qs_get_unique; [apply lookup_insert_eq| |].
    - unfold is_recovery_method, owned_by. simpl. rewrite Hpku.
      rewrite bool_decide_eq_true_2 by done. simpl. apply String.eqb_refl.
    - intros j b Hj Hb. destruct (decide (j = kn)) as [|Hne]; [done|].
      simpl in Hj. rewrite lookup_insert_ne in Hj by done.
      apply is_recovery_method_active in Hb.
      assert (Hself : is_active_recovery self b = true).
      { revert Hb. unfold is_active_recovery, owned_by.
        by rewrite Hpk, Hpku. }
      by rewrite (recover_deactivates self (methods db) j b Hj) in Hself. }
  assert (Hgu' : qs_get (λ u, iexact (Users.username u) uname
                              && Users.active u) (users db')
                 = Ok user_object) by done.
  pose proof (login_recovery_found env2 info db' uname token user_object _
                uid kn Hs Hu Ht Hgu' Hgm Hpku eq_refl) as Hfound.
  cbn [fields] in Hfound.
  assert (Hexp : Methods.expired (now env2) (new_recovery env self uid)
                 = (now env + VALIDATION_TIME <? now env2)) by done.
  rewrite Hexp in Hfound. split; intros Hnow.
  - rewrite (proj2 (Z.ltb_ge _ _) Hnow) in Hfound.
    rewrite Hfound. eexists _, _. by repeat split.
  - rewrite (proj2 (Z.ltb_lt _ _) Hnow) in Hfound. by rewrite Hfound.
Qed.

End recovery_round_trip.

(** ** From the enrollment to the second step *)

Section oath_round_trip.

(** X17: after [generate_oath], a [login_oath] of that user with the
    right password and the current code of the returned secret returns
    the user, with the time of the call as the access time. *)
Theorem generate_oath_then_login env0 self uid db env info u db1 :
  pk self = Some uid →
  let db0 := (generate_oath env0 self db).2 in
  let key := b32encode (random_string env0 OATH_STRING_SIZE) in
  login_password env false info db0 = (Ok u, db1) →
  pk u = Some uid →
  (generate_oath env0 self db).1 = Ok key
  ∧ ∃ u2 db2,
      login_oath env (PInt (get_totp key (now env))) info db0
        = (Ok (Obj (Some uid) u2), db2)
      ∧ Users.last_access u2 = Some (now env)
      ∧ users db2 !! uid = Some u2.
Proof.
  intros Hpk db0 key Hlogin Hpku.
  pose proof (generate_oath_filter env0 self uid db Hpk) as Hfilter.
  simpl in Hfilter. fold db0 in Hfilter.
  set (kn := fresh (dom (qs_delete (is_oath_key self) (methods db)))) in *.
  assert (Hget : qs_get (is_oath_method u) (methods db0)
                 = Ok (Obj (Some kn) (new_oath env0 uid))).
  { assert (Hkn : qs_filter (is_oath_key self) (methods db0) !! kn
                  = Some (new_oath env0 uid))
      by (rewrite Hfilter; apply lookup_singleton_eq).
    apply qs_filter_lookup in Hkn as [Hkn _].
    apply qs_get_unique; [done| |].
    - unfold is_oath_method, owned_by. simpl. rewrite Hpku.
      by rewrite bool_decide_eq_true_2.
    - intros j b Hj Hb. apply is_oath_method_key in Hb as (Hb & _).
      rewrite (is_oath_key_pk u self) in Hb by congruence.
      assert (Hin : qs_filter (is_oath_key self) (methods db0) !! j = Some b)
        by by apply qs_filter_lookup.
      rewrite Hfilter in Hin.
      by apply lookup_singleton_Some in Hin as [? _]. }
  split.
  { by rewrite (generate_oath_eval env0 self uid db Hpk). }
  destruct (login_oath_right_code env info db0 u db1 _ Hlogin Hget)
    as (ku & ko & u2 & db2 & Hoath & Hku & _ & Hu2 & Husers & _).
  assert (ku = uid) as -> by congruence.
  exists u2, db2. split; [exact Hoath|]. split.
  - by rewrite Hu2.
  - rewrite Husers. apply lookup_insert_eq.
Qed.

End oath_round_trip.

(** ** Changing the password *)

Section password_change.

Lemma password_schema_ok new :
  Password new = true →
  list_errors password_schema {[ "password" := PStr new ]} = [].
Proof.
  intros Hvalid. unfold list_errors. rewrite map_to_list_singleton. simpl.
  unfold value_errors. simpl. by rewrite Hvalid.
Qed.

(** What a successful [modify_password] leaves. *)
Lemma modify_password_success env self uid new check old db method_object
    km :
  pk self = Some uid →
  new ≠ "" → Password new = true →
  qs_get (is_own_password self) (methods db) = Ok method_object →
  pk method_object = Some km →
  (check = true →
   ∃ o, old = PStr o ∧ o ≠ ""
        ∧ hashpw (strip o) (Methods.password (fields method_object))
          = Methods.password (fields method_object)) →
  modify_password env self (PStr new) check old db =
    (Ok (),
     mkDB (users db)
          (<[km := pre_save false (now env)
                     (Methods.set_password (hashpw new (gensalt env))
                        (fields method_object))]> (methods db))
          (tokens db) (flags db)).
Proof.
  intros Hpk Hne Hvalid Hget Hkm Hold.
  destruct (qs_get_Ok _ _ _ Hget) as (km' & Hkm' & Hlm & _).
  assert (km' = km) as -> by congruence.
  unfold modify_password, check_old_password. rewrite Hpk.
  rewrite (password_schema_ok new Hvalid). simpl.
  apply String.eqb_neq in Hne. rewrite Hne. simpl.
  munfold. unfold is_own_password in Hget. rewrite Hget. simpl.
  destruct check.
  - destruct (Hold eq_refl) as (o & -> & Ho & Hhash). simpl.
    apply String.eqb_neq in Ho. rewrite Ho. simpl.
    rewrite Hhash, String.eqb_refl. simpl. rewrite Hkm. simpl.
    by rewrite bool_decide_eq_false_2 by (by rewrite Hlm).
  - simpl. rewrite Hkm. simpl.
    by rewrite bool_decide_eq_false_2 by (by rewrite Hlm).
Qed.

Lemma is_password_method_own (o self : obj Users.t) m :
  pk o = pk self →
  is_password_method o m = true → is_own_password self m = true.
Proof.
  unfold is_password_method, is_own_password, owned_by. intros -> HP.
  repeat (apply andb_true_iff in HP as [HP ?]).
  apply andb_true_iff. split; [done|lia].
Qed.

(** X18: after a successful [modify_password], [login_password] with the
    new password returns the user, provided that the method is the
    user's active password method at step 1 and that the hash function
    reproduces a hash from the password and the hash, as bcrypt does. *)
Theorem modify_password_then_login env self uid new check old db
    method_object env2 upd info flag uname user_object :
  pk self = Some uid →
  new ≠ "" → Password new = true →
  qs_get (is_own_password self) (methods db) = Ok method_object →
  (check = true →
   ∃ o, old = PStr o ∧ o ≠ ""
        ∧ hashpw (strip o) (Methods.password (fields method_object))
          = Methods.password (fields method_object)) →
  qs_get (has_tag "user-login") (flags db) = Ok flag →
  Data.setting (fields flag) ≠ 0 →
  list_errors login_schema info = [] →
  info !! "username" = Some (PStr uname) →
  info !! "password" = Some (PStr new) →
  qs_get (λ u, iexact (Users.username u) uname) (users db)
    = Ok user_object →
  Users.active (fields user_object) = true →
  pk user_object = Some uid →
  is_password_method user_object (fields method_object) = true →
  hashpw new (hashpw new (gensalt env)) = hashpw new (gensalt env) →
  modify_password env self (PStr new) check old db
    = (Ok (), (modify_password env self (PStr new) check old db).2)
  ∧ ∃ u db2,
      login_password env2 upd info
        (modify_password env self (PStr new) check old db).2
      = (Ok u, db2)
      ∧ pk u = Some uid.
Proof.
  intros Hpk Hne Hvalid Hget Hold Hflag Hset Hs Hu Hp Hgu Hact Hpku HP
    Hhash.
  destruct (qs_get_Ok _ _ _ Hget) as (km & Hkm & Hlm & _ & Huniq).
  rewrite (modify_password_success env self uid new check old db
             method_object km) by done.
  split; [done|]. cbn [snd].
  set (m1 := pre_save false (now env) _).
  set (db1 := mkDB _ _ _ _).
  assert (Hgm : qs_get (is_password_method user_object) (methods db1)
                = Ok (Obj (Some km) m1)).
  { apply qs_get_unique; [apply lookup_insert_eq|exact HP|].
    intros j b Hj Hb. destruct (decide (j = km)) as [|Hjk]; [done|].
    simpl in Hj. rewrite lookup_insert_ne in Hj by done.
    apply (Huniq j b Hj).
    apply (is_password_method_own user_object); [congruence|done]. }
  rewrite (login_password_success env2 upd info db1 flag uname new
             user_object (Obj (Some km) m1) uid km) by done.
  destruct upd; eexists _, _; by split.
Qed.

(** X19: [modify_password] with the check of the old password, on a user
    with one password method and with a new password that the rule
    accepts: an old password that does not reproduce the stored hash is
    answered with [invalid-old-password], a missing one with
    [old-password-required]; a missing new password and a missing old
    password are reported together.  Nothing is written in these
    cases. *)
Theorem modify_password_refusals env self uid new db method_object :
  pk self = Some uid →
  new ≠ "" → Password new = true →
  qs_get (is_own_password self) (methods db) = Ok method_object →
  let stored := Methods.password (fields method_object) in
  (∀ o, o ≠ "" → hashpw (strip o) stored ≠ stored →
        modify_password env self (PStr new) true (PStr o) db
        = (UserError ["invalid-old-password"], db))
  ∧ (∀ old, truthy old = false →
            modify_password env self (PStr new) true old db
            = (UserError ["old-password-required"], db))
  ∧ modify_password env self PNone true PNone db
    = (UserError ["new-password-required"; "invalid-new-password";
                  "old-password-required"], db).
Proof.
  intros Hpk Hne Hvalid Hget stored.
  unfold modify_password, check_old_password. rewrite Hpk.
  rewrite (password_schema_ok new Hvalid).
  unfold list_errors. rewrite map_to_list_singleton. simpl.
  apply String.eqb_neq in Hne. rewrite Hne. simpl.
  munfold. unfold is_own_password in Hget. rewrite Hget. simpl.
  repeat split.
  - intros o Ho Hhash. simpl.
    apply String.eqb_neq in Ho, Hhash. rewrite Ho. simpl.
    fold stored. by rewrite Hhash.
  - intros old ->. done.
Qed.

(** X20: after [deactivate], which deletes the methods of the user,
    [modify_password] on that user raises [DoesNotExist], whatever its
    arguments are and also without the check of the old password, and
    writes nothing. *)
Theorem deactivate_then_modify_password env self uid db env2 self2 new
    check old :
  pk self = Some uid → pk self2 = Some uid →
  let db1 := (deactivate env self db).2 in
  modify_password env2 self2 new check old db1 = (Raise DoesNotExist, db1).
Proof.
  intros Hpk Hpk2 db1. unfold db1.
  rewrite (deactivate_eval env self uid db Hpk). cbn [snd].
  unfold modify_password. rewrite Hpk2. munfold. cbn [methods].
  rewrite qs_get_none; [done|].
  intros j m Hj. apply qs_delete_lookup in Hj as [_ Hj].
  assert (Hown : owned_by self2 m = false).
  { revert Hj. unfold owned_by. by rewrite Hpk, Hpk2. }
  by rewrite Hown.
Qed.

End password_change.

(** ** Changes of a user's row *)

Section user_changes.





Lemma set_user_type_eval env self uid db n :
  pk self = Some uid →
  save_user (now env) (Obj (pk self) (Users.set_user_type n (fields self)))
    db
  = (Ok (Obj (Some uid)
           (pre_save (bool_decide (users db !! uid = None)) (now env)
              (Users.set_user_type n (fields self)))),
     mkDB (<[uid := pre_save (bool_decide (users db !! uid = None))
                      (now env) (Users.set_user_type n (fields self))]>
             (users db))
          (methods db) (tokens db) (flags db)).
Proof. intros Hpk. munfold. simpl. by rewrite Hpk. Qed.

(** X22: the users that the manager [admins] works on are those made
    administrators: after [set_admin] the user is among them, after
    [set_standard] the user is not, and neither call changes whether
    another user is. *)
Theorem set_admin_admins env self uid db :
  pk self = Some uid →
  let db1 := (set_admin env self db).2 in
  let db2 := (set_standard env self db).2 in
  is_Some (admins db1 !! uid)
  ∧ admins db2 !! uid = None
  ∧ ∀ j, j ≠ uid →
         admins db1 !! j = admins db !! j ∧ admins db2 !! j = admins db !! j.
Proof.
  intros Hpk db1 db2. unfold db1, db2, set_admin, set_standard.
  rewrite Hpk, <- Hpk, !(set_user_type_eval env self uid db _ Hpk).
  cbn [snd]. unfold admins, qs_filter. cbn [users]. repeat split.
  - eexists. apply map_lookup_filter_Some. split;
      [apply lookup_insert_eq|done].
  - apply map_lookup_filter_None. right. intros u Hu.
    rewrite lookup_insert_eq in Hu. simplify_eq. vm_compute. tauto.
  - by rewrite !map_lookup_filter, lookup_insert_ne.
  - by rewrite !map_lookup_filter, lookup_insert_ne.
Qed.

Lemma delete_user_eval self uid db :
  pk self = Some uid →
  delete_user self db
  = (Ok (), mkDB (delete uid (users db))
                 (qs_delete (owned_by self) (methods db))
                 (tokens db) (flags db)).
Proof. intros Hpk. unfold delete_user. rewrite Hpk. by munfold. Qed.

(** X23: [delete] on a saved user removes the row of the user and the
    methods of that user, and nothing else: the other users, the methods
    of the other users, the tokens and the settings stay.  If every
    method belonged to a user before, every method does so after. *)
Theorem delete_user_cascade self uid db :
  pk self = Some uid →
  ∃ db1,
    delete_user self db = (Ok (), db1)
    ∧ users db1 !! uid = None
    ∧ (∀ j, j ≠ uid → users db1 !! j = users db !! j)
    ∧ (∀ j m, methods db1 !! j = Some m
              ↔ methods db !! j = Some m ∧ Methods.user m ≠ uid)
    ∧ tokens db1 = tokens db ∧ flags db1 = flags db
    ∧ (methods_have_users db → methods_have_users db1).
Proof.
  intros Hpk. eexists. split; [by apply delete_user_eval|]. simpl.
  assert (Hm : ∀ j m, qs_delete (owned_by self) (methods db) !! j = Some m
               ↔ methods db !! j = Some m ∧ Methods.user m ≠ uid).
  { intros j m. rewrite qs_delete_lookup.
    pose proof (owned_by_true self uid m Hpk) as Hown.
    split; intros [Hj Hno]; (split; [done|]).
    - intros Hu. apply Hown in Hu. congruence.
    - destruct (owned_by self m); [|done].
      exfalso. by apply Hno, Hown. }
  split_and!; try done.
  - apply lookup_delete_eq.
  - intros j Hj. by apply lookup_delete_ne.
  - intros Hinv j m [Hj Hne]%Hm. simpl.
    rewrite lookup_delete_ne by done. by apply (Hinv j).
Qed.

(** X24: a deactivated user keeps the name: after [deactivate] on the
    one user of a name, [user_exists] still answers [True] for the name,
    so that it cannot be registered again; after [delete] it answers
    [False]. *)
Theorem deactivate_keeps_name env self uid name db user_object :
  pk self = Some uid →
  qs_get (λ u, iexact (Users.username u) name) (users db) = Ok user_object →
  pk user_object = Some uid →
  iexact (Users.username (fields self)) name = true →
  (user_exists name (deactivate env self db).2).1 = Ok true
  ∧ (user_exists name (delete_user self db).2).1 = Ok false.
Proof.
  intros Hpk Hget Hpko Hname.
  rewrite (deactivate_eval env self uid db Hpk),
    (delete_user_eval self uid db Hpk).
  unfold user_exists. cbn [fst snd users]. split.
  - by rewrite (qs_get_insert_true _ _ _ _ _ Hget Hpko).
  - rewrite qs_get_none; [done|].
    intros j u Hj. destruct (qs_get_Ok _ _ _ Hget) as (k & Hk & _ & _ & Hu).
    assert (k = uid) as -> by congruence.
    destruct (iexact (Users.username u) name) eqn:Hn; [|done].
    apply lookup_delete_Some in Hj as [Hne Hj].
    by specialize (Hu j u Hj Hn).
Qed.

End user_changes.

(** ** Failures of [create] *)

Section registration_failures.


Lemma reads_raise {A} e : reads (@raise A e).
Proof. done. Qed.






End registration_failures.

(** ** The settings and [login_recovery] *)

Section recovery_settings.

Lemma ignores_flags_bind {A B} (m : M A) (f : A → M B) :
  ignores_flags m → (∀ a, ignores_flags (f a)) → ignores_flags (bind m f).
Proof.
  intros Hm Hf db fl. unfold bind. rewrite Hm.
  destruct (m db) as [[a|errs|e] db']; simpl; [apply Hf|done..].
Qed.

Lemma ignores_flags_getitem d k : ignores_flags (getitem d k).
Proof. unfold getitem. by destruct (d !! k). Qed.

Lemma ignores_flags_login_recovery env info :
  ignores_flags (login_recovery env info).
Proof.
  unfold login_recovery, mbind, M_bind.
  repeat first
    [ apply ignores_flags_bind; [|intros ?]
    | apply ignores_flags_getitem
    | case_match
    | done ].
Qed.

(** X26: [login_recovery] does not look at the settings: with any other
    settings, and so with logins disabled, it gives the same result and
    makes the same changes. *)
Theorem login_recovery_ignores_settings env info db fl :
  login_recovery env info (set_flags fl db)
  = ((login_recovery env info db).1,
     set_flags fl (login_recovery env info db).2).
Proof. apply ignores_flags_login_recovery. Qed.

End recovery_settings.

End auth.

(** * Examples on the small database *)

(** C1 at work: Bob's recovery token has expired; the first call burns
    it, and a later call with the same fields is refused. *)
Lemma login_recovery_single_use_witness :
  (login_recovery Ex.any Ex.env (Ex.recovery "bob" "abc123") Ex.db).1
    = UserError [INVALID_RECOVERY]
  ∧ (login_recovery Ex.any Ex.env_later (Ex.recovery "BOB" "abc123")
       (login_recovery Ex.any Ex.env (Ex.recovery "bob" "abc123") Ex.db).2).1
    = UserError [INVALID_RECOVERY].
Proof.
  destruct (login_recovery_single_use Ex.any Ex.env
              (Ex.recovery "bob" "abc123") Ex.db "bob" "abc123" Ex.bob_self
              (Obj (Some 2%positive) Ex.bob_recovery)
              ltac:(vm_compute; reflexivity) ltac:(vm_compute; reflexivity)
              ltac:(vm_compute; reflexivity) ltac:(vm_compute; reflexivity)
              ltac:(vm_compute; reflexivity))
    as (km & m' & _ & _ & _ & _ & _ & _ & Hexpired & _ & Hreuse).
  split.
  - apply Hexpired. vm_compute. reflexivity.
  - apply (Hreuse Ex.env_later (Ex.recovery "BOB" "abc123") "BOB");
      vm_compute; reflexivity.
Defined.

(** C2 at work: the inactive user Eve is told [user-inactive]. *)
Lemma login_password_failure_codes_witness :
  login_password Ex.hashpw Ex.env true (Ex.login "EVE" "x") Ex.db
    = (UserError ["user-inactive"], Ex.db).
Proof.
  refine (proj1 (proj2 (login_password_failure_codes Ex.hashpw Ex.env true
                          (Ex.login "EVE" "x") Ex.db
                          (Obj (Some 2%positive) (Data.mk "user-login" 1 ""))
                          "EVE" "x" _ _ _ _ _))
            (Obj (Some 2%positive) Ex.eve) _ _);
    try (vm_compute; reflexivity).
  vm_compute. discriminate.
Defined.

(** The claim C2 fails on the inactive user: an unknown name is answered
    with [invalid-login], the name of the inactive user Eve with
    [user-inactive], which tells that the account exists. *)
Lemma login_password_inactive_counterexample :
  (login_password Ex.hashpw Ex.env true (Ex.login "nobody" "x") Ex.db).1
    = UserError [INVALID_LOGIN]
  ∧ (login_password Ex.hashpw Ex.env true (Ex.login "eve" "x") Ex.db).1
    = UserError ["user-inactive"]
  ∧ (login_password Ex.hashpw Ex.env true (Ex.login "eve" "x") Ex.db).1
    ≠ UserError [INVALID_LOGIN].
Proof. vm_compute. repeat split; discriminate. Qed.

(** C3 at work: Alice registers with the invitation and the mail cannot
    be sent; the call fails, and Alice and the used invitation are in the
    database. *)
Lemma create_mail_failure_keeps_records_witness :
  ∃ db',
    create Ex.any Ex.any Ex.any Ex.any Ex.any Ex.hashpw Ex.sha1_hexdigest
      Ex.env_no_mail
      (Ex.registration "alice" "alice@example.org" "pw" "invite") Ex.db
    = (UserError ["validation-email-failure"], db')
    ∧ (∃ uid u, users Ex.db !! uid = None ∧ users db' !! uid = Some u
                ∧ Users.username u = "alice")
    ∧ (∃ t, tokens db' !! 1%positive = Some t ∧ Tokens.exhausted t = true).
Proof.
  destruct (create_mail_failure_keeps_records Ex.any Ex.any Ex.any Ex.any
              Ex.any Ex.hashpw Ex.sha1_hexdigest Ex.env_no_mail
              (Ex.registration "alice" "alice@example.org" "pw" "invite")
              Ex.db (Obj (Some 1%positive) (Data.mk "new-users" 0 "token"))
              true "alice" "alice@example.org" "pw"
              (Some (Obj (Some 1%positive) Ex.invite))
              ltac:(vm_compute; reflexivity) ltac:(vm_compute; reflexivity)
              ltac:(vm_compute; reflexivity) ltac:(vm_compute; reflexivity)
              ltac:(vm_compute; reflexivity) ltac:(vm_compute; reflexivity)
              ltac:(vm_compute; reflexivity) ltac:(vm_compute; reflexivity)
              ltac:(split; [reflexivity|exists "invite"; vm_compute;
                            repeat split; reflexivity])
              ltac:(reflexivity))
    as (db' & uid & u & kp & mp & kv & mv & Hfail & _ & Hnew & Hu & Hname
        & _ & _ & _ & _ & _ & _ & _ & _ & _ & _ & _ & _ & _ & _ & _
        & Hticket).
  exists db'. split; [exact Hfail|]. split.
  - exists uid, u. repeat split; assumption.
  - destruct (Hticket _ eq_refl) as (kt & Hkt & Hlookup).
    injection Hkt as <-. eexists. split; [exact Hlookup|reflexivity].
Defined.

(** C4 at work: the stale invitation is both exhausted and expired. *)
Lemma create_token_errors_witness :
  create Ex.any Ex.any Ex.any Ex.any Ex.any Ex.hashpw Ex.sha1_hexdigest
    Ex.env (Ex.registration "alice" "alice@example.org" "pw" "stale") Ex.db
  = (UserError ["token-exhausted"; "token-expired"], Ex.db).
Proof.
  refine (proj2 (proj2 (proj2 (create_token_errors Ex.any Ex.any Ex.any
                                 Ex.any Ex.any Ex.hashpw Ex.sha1_hexdigest
                                 Ex.env
                                 (Ex.registration "alice" "alice@example.org"
                                    "pw" "stale")
                                 Ex.db
                                 (Obj (Some 1%positive)
                                      (Data.mk "new-users" 0 "token"))
                                 "alice" "alice@example.org" "stale"
                                 _ _ _ _ _ _ _ _)
                          (Obj (Some 2%positive) Ex.stale) _)) _ _);
    vm_compute; reflexivity.
Defined.

(** The claim C4 names an error that the code does not have: an unknown
    token is answered with [no-such-token], not [no-such-ticket]. *)
Lemma create_unknown_token_counterexample :
  (create Ex.any Ex.any Ex.any Ex.any Ex.any Ex.hashpw Ex.sha1_hexdigest
     Ex.env (Ex.registration "alice" "alice@example.org" "pw" "unknown")
     Ex.db).1
  = UserError ["no-such-token"]
  ∧ ¬ In "no-such-ticket" ["no-such-token"].
Proof.
  split; [vm_compute; reflexivity|].
  intros [Heq|[]]. discriminate Heq.
Qed.

(** C5 at work: with user creation disabled, fields that no schema would
    accept are answered like any others. *)
Lemma create_disabled_witness :
  create Ex.any Ex.any Ex.any Ex.any Ex.any Ex.hashpw Ex.sha1_hexdigest
    Ex.env {[ "username" := PInt 7; "shoe-size" := PNone ]} Ex.db_closed
  = (UserError ["creation-disabled"], Ex.db_closed).
Proof.
  apply (create_disabled Ex.any Ex.any Ex.any Ex.any Ex.any Ex.hashpw
           Ex.sha1_hexdigest Ex.env _ Ex.db_closed
           (Obj (Some 1%positive) (Data.mk "new-users" 0 "")));
    [vm_compute; reflexivity|reflexivity|discriminate].
Defined.

(** The claim C5 names an error that the code does not have: disabled
    user creation is answered with [creation-disabled], not
    [registration-disabled]. *)
Lemma disabled_creation_code_counterexample :
  (create Ex.any Ex.any Ex.any Ex.any Ex.any Ex.hashpw Ex.sha1_hexdigest
     Ex.env (Ex.registration "alice" "alice@example.org" "pw" "invite")
     Ex.db_closed).1
  = UserError ["creation-disabled"]
  ∧ ¬ In "registration-disabled" ["creation-disabled"].
Proof.
  split; [vm_compute; reflexivity|].
  intros [Heq|[]]. discriminate Heq.
Qed.

(** C6 at work: the name of Bob in capitals, with the address of Eve. *)
Lemma create_reports_both_collisions_witness :
  create Ex.any Ex.any Ex.any Ex.any Ex.any Ex.hashpw Ex.sha1_hexdigest
    Ex.env (Ex.registration "BOB" "Eve@Example.org" "pw" "invite") Ex.db
  = (UserError ["user-exists"; "email-exists"], Ex.db).
Proof.
  apply (create_reports_both_collisions Ex.any Ex.any Ex.any Ex.any Ex.any
           Ex.hashpw Ex.sha1_hexdigest Ex.env _ Ex.db
           (Obj (Some 1%positive) (Data.mk "new-users" 0 "token")) true
           "BOB" "Eve@Example.org");
    try (vm_compute; reflexivity).
  - exists 1%positive, Ex.bob. split; vm_compute; reflexivity.
  - exists 2%positive, Ex.eve. split; vm_compute; reflexivity.
Defined.

(** C7 at work: Bob's validation token has no expiration date. *)
Lemma validate_outcomes_witness :
  ∃ u1, (validate Ex.any Ex.env Ex.bob_self (PStr "val456") Ex.db).1
        = Ok (Obj (Some 1%positive) u1)
        ∧ Users.validated u1 = true.
Proof.
  destruct (proj1 (proj2 (validate_outcomes Ex.any Ex.env Ex.bob_self
                            1%positive "val456" Ex.db eq_refl
                            ltac:(discriminate) eq_refl))
              (Obj (Some 3%positive) Ex.bob_validation)
              ltac:(vm_compute; reflexivity))
    as (km & m1 & _ & _ & _ & _ & _ & Hvalid).
  destruct (Hvalid ltac:(vm_compute; reflexivity))
    as (u1 & Hok & _ & Hflag & _).
  exists u1. split; assumption.
Defined.

(** C8 at work: Bob asks for a recovery token while one is active, and a
    new database gets its first recovery token. *)
Lemma recover_one_active_token_at_most_witness :
  size (qs_filter (is_active_recovery Ex.bob_self)
          (methods (recover Ex.sha1_hexdigest Ex.env Ex.bob_self Ex.db).2))
    = 1%nat
  ∧ one_active_recovery_at_most
      (run Ex.any Ex.any Ex.any Ex.any Ex.any Ex.hashpw Ex.sha1_hexdigest
         Ex.b32encode Ex.get_totp Ex.strip Ex.env (Recover Ex.bob_self)
         Ex.db_empty).
Proof.
  destruct (recover_one_active_token_at_most Ex.any Ex.any Ex.any Ex.any
              Ex.any Ex.hashpw Ex.sha1_hexdigest Ex.b32encode Ex.get_totp
              Ex.strip) as [Hrecover Hinv].
  split.
  - apply (Hrecover Ex.env Ex.bob_self 1%positive Ex.db eq_refl).
  - apply Hinv. intros uid i j mi mj Hi. simpl in Hi.
    rewrite lookup_empty in Hi. discriminate Hi.
Defined.

(** C9 at work: Bob enrolls twice, with two secrets; the code of the
    first secret is refused. *)
Lemma generate_oath_replaces_key_witness :
  ∃ db3,
    login_oath Ex.hashpw Ex.get_totp Ex.env_later
      (PInt (Ex.get_totp "b32:AAAAAAAAAA" 200)) (Ex.login "bob" "secret")
      (generate_oath Ex.b32encode Ex.env_later Ex.bob_self
         (generate_oath Ex.b32encode Ex.env Ex.bob_self Ex.db).2).2
    = (UserError [INVALID_LOGIN], db3).
Proof.
  assert (Hpassword :
            ∃ u db3,
              login_password Ex.hashpw Ex.env_later false
                (Ex.login "bob" "secret")
                (generate_oath Ex.b32encode Ex.env_later Ex.bob_self
                   (generate_oath Ex.b32encode Ex.env Ex.bob_self Ex.db).2).2
              = (Ok u, db3)
              ∧ pk u = Some 1%positive).
  { vm_compute. eexists _, _. split; reflexivity. }
  destruct Hpassword as (u & db3 & Hpassword & Hpk).
  exists db3.
  apply (proj2 (proj2 (proj2 (proj2 (proj2 (proj2 (proj2
           (generate_oath_replaces_key Ex.hashpw Ex.b32encode Ex.get_totp
              Ex.env Ex.env_later Ex.bob_self 1%positive Ex.db
              eq_refl)))))))
           Ex.env_later (Ex.login "bob" "secret") u db3 Hpassword Hpk).
  vm_compute. discriminate.
Defined.

(** The claim C9 fails when the random source gives the same string
    twice: the only OATH key of Bob then holds the first secret, and the
    code of the first secret logs Bob in. *)
Lemma generate_oath_same_secret_counterexample :
  (generate_oath Ex.b32encode Ex.env Ex.bob_self Ex.db).1
    = Ok "b32:AAAAAAAAAA"
  ∧ (∃ k m,
       methods (generate_oath Ex.b32encode Ex.env Ex.bob_self
                  (generate_oath Ex.b32encode Ex.env Ex.bob_self Ex.db).2).2
         !! k = Some m
       ∧ Methods.method m = METHOD_OATH_KEY
       ∧ Methods.token m = "b32:AAAAAAAAAA")
  ∧ (∃ u,
       (login_oath Ex.hashpw Ex.get_totp Ex.env_later
          (PInt (Ex.get_totp "b32:AAAAAAAAAA" 200)) (Ex.login "bob" "secret")
          (generate_oath Ex.b32encode Ex.env Ex.bob_self
             (generate_oath Ex.b32encode Ex.env Ex.bob_self Ex.db).2).2).1
       = Ok u ∧ pk u = Some 1%positive).
Proof.
  split; [vm_compute; reflexivity|]. split.
  - exists 4%positive. eexists. vm_compute. repeat split; reflexivity.
  - eexists. vm_compute. split; reflexivity.
Qed.

(** C10 at work: Bob is deactivated and activated again, and his
    password does not log him in any more. *)
Lemma deactivate_deletes_methods_witness :
  login_password Ex.hashpw Ex.env_later true (Ex.login "bob" "secret")
    (activate Ex.env_later Ex.bob_self
       (deactivate Ex.env Ex.bob_self Ex.db).2).2
  = (UserError [INVALID_LOGIN],
     (activate Ex.env_later Ex.bob_self
        (deactivate Ex.env Ex.bob_self Ex.db).2).2).
Proof.
  refine (proj2 (proj2 (proj2
            (proj2 (proj2 (deactivate_deletes_methods Ex.hashpw Ex.env
                             Ex.bob_self 1%positive Ex.db eq_refl))
               Ex.env_later Ex.bob_self eq_refl)))
            Ex.env_later true (Ex.login "bob" "secret")
            (Obj (Some 2%positive) (Data.mk "user-login" 1 "")) "bob"
            "secret"
            (Obj (Some 1%positive)
                 (Users.pre_save false 200
                    (Users.set_active true Ex.bob)))
            _ _ _ _ _ _ _);
    try (vm_compute; reflexivity).
  vm_compute. discriminate.
Defined.

(** ** Further examples *)

Lemma ex_db_methods_have_users : methods_have_users Ex.db.
Proof.
  intros j m Hj. unfold Ex.db in Hj. cbn [methods] in Hj.
  apply lookup_insert_Some in Hj as [[_ <-]|[_ Hj]];
    [vm_compute; eauto|].
  apply lookup_insert_Some in Hj as [[_ <-]|[_ Hj]];
    [vm_compute; eauto|].
  apply lookup_singleton_Some in Hj as [_ <-]. vm_compute; eauto.
Qed.

Lemma ex_db_one_bob j b :
  users Ex.db !! j = Some b → lower (Users.username b) = lower "BOB" →
  j = 1%positive.
Proof.
  intros Hj Hb. unfold Ex.db in Hj. cbn [users] in Hj.
  apply lookup_insert_Some in Hj as [[<- _]|[_ Hj]]; [done|].
  apply lookup_singleton_Some in Hj as [_ <-].
  vm_compute in Hb. discriminate.
Qed.

(** X1 at work: Bob is found under his name in capitals. *)
Lemma exists_answers_witness : user_exists "BOB" Ex.db = (Ok true, Ex.db).
Proof.
  apply (proj1 (proj2 (exists_answers "BOB" Ex.db)) 1%positive Ex.bob);
    [reflexivity|vm_compute; reflexivity|apply ex_db_one_bob].
Defined.

(** X2 at work: after Alice has registered, her name and her address
    are taken, in any case of the letters. *)
Lemma create_then_exists_witness :
  let db' :=
    (create Ex.any Ex.any Ex.any Ex.any Ex.any Ex.hashpw Ex.sha1_hexdigest
       Ex.env (Ex.registration "alice" "alice@example.org" "pw" "invite")
       Ex.db).2 in
  user_exists "ALICE" db' = (Ok true, db')
  ∧ email_exists "Alice@Example.org" db' = (Ok true, db').
Proof.
  apply (create_then_exists Ex.any Ex.any Ex.any Ex.any Ex.any Ex.hashpw
           Ex.sha1_hexdigest Ex.env
           (Ex.registration "alice" "alice@example.org" "pw" "invite")
           Ex.db (Obj (Some 1%positive) (Data.mk "new-users" 0 "token"))
           true "alice" "alice@example.org" "pw"
           (Some (Obj (Some 1%positive) Ex.invite)));
    first [ by vm_compute
          | split; [reflexivity|exists "invite"; vm_compute;
                                repeat split; reflexivity] ].
Defined.

(** X3 at work: Carol cannot register with the invitation that Alice
    has used. *)
Lemma create_token_single_use_witness :
  let db' :=
    (create Ex.any Ex.any Ex.any Ex.any Ex.any Ex.hashpw Ex.sha1_hexdigest
       Ex.env (Ex.registration "alice" "alice@example.org" "pw" "invite")
       Ex.db).2 in
  create Ex.any Ex.any Ex.any Ex.any Ex.any Ex.hashpw Ex.sha1_hexdigest
    Ex.env_later (Ex.registration "carol" "carol@example.org" "pw2" "invite")
    db'
  = (UserError ["token-exhausted"], db').
Proof.
  apply (create_token_single_use Ex.any Ex.any Ex.any Ex.any Ex.any
           Ex.hashpw Ex.sha1_hexdigest Ex.env
           (Ex.registration "alice" "alice@example.org" "pw" "invite")
           Ex.db (Obj (Some 1%positive) (Data.mk "new-users" 0 "token"))
           "alice" "alice@example.org" "pw"
           (Obj (Some 1%positive) Ex.invite) "invite" Ex.env_later
           (Ex.registration "carol" "carol@example.org" "pw2" "invite")
           "carol" "carol@example.org");
    first [ by vm_compute | vm_compute; discriminate ].
Defined.


(** X5 at work: Bob has logged in with his password, so the name that was
    given is the one of an active user. *)
Lemma login_password_sound_witness :
  ∃ uname user_object,
    Ex.login "bob" "secret" !! "username" = Some (PStr uname)
    ∧ qs_get (λ u, iexact (Users.username u) uname) (users Ex.db)
      = Ok user_object
    ∧ Users.active (fields user_object) = true.
Proof.
  destruct (login_password_sound Ex.hashpw Ex.env false
              (Ex.login "bob" "secret") Ex.db Ex.bob_self
              (login_password Ex.hashpw Ex.env false
                 (Ex.login "bob" "secret") Ex.db).2
              ltac:(vm_compute; reflexivity))
    as (flag & uname & pw & user_object & method_object & _ & _ & Hu & _
        & Hget & Hactive & _).
  exists uname, user_object. repeat split; assumption.
Defined.

(** X6 at work: the login of Bob has stamped one method and has left the
    users as they were. *)
Lemma login_password_stamps_witness :
  let db' := (login_password Ex.hashpw Ex.env false
                (Ex.login "bob" "secret") Ex.db).2 in
  users db' = users Ex.db
  ∧ ∃ km method_row,
      methods Ex.db !! km = Some method_row
      ∧ methods db'
        = <[km := pre_save false (now Ex.env)
                    (Methods.set_last_used (Some (now Ex.env)) method_row)]>
            (methods Ex.db).
Proof.
  destruct (login_password_stamps Ex.hashpw Ex.env false
              (Ex.login "bob" "secret") Ex.db Ex.bob_self
              (login_password Ex.hashpw Ex.env false
                 (Ex.login "bob" "secret") Ex.db).2
              ltac:(vm_compute; reflexivity))
    as (ku & km & user_row & method_row & _ & _ & Hm & Hms & _ & _ & Hsame
        & _).
  split; [exact (proj1 (Hsame eq_refl))|].
  exists km, method_row. split; assumption.
Defined.

(** X7 at work: a wrong password for Bob leaves the database alone. *)
Lemma login_password_failure_writes_nothing_witness :
  (login_password Ex.hashpw Ex.env true (Ex.login "bob" "wrong") Ex.db).2
  = Ex.db.
Proof.
  apply (login_password_failure_writes_nothing Ex.hashpw Ex.env true
           (Ex.login "bob" "wrong") Ex.db).
  intros u. vm_compute. discriminate.
Defined.

(** X8 at work: with logins disabled, Bob's right password is refused. *)
Lemma login_disabled_witness :
  let db := set_flags {[ 2%positive := Data.mk "user-login" 0 "" ]} Ex.db in
  login_password Ex.hashpw Ex.env true (Ex.login "bob" "secret") db
    = (UserError ["login-disabled"], db)
  ∧ login_oath Ex.hashpw Ex.get_totp Ex.env (PInt 0)
      (Ex.login "bob" "secret") db
    = (UserError ["login-disabled"], db).
Proof.
  apply (login_disabled Ex.hashpw Ex.get_totp Ex.env true (PInt 0)
           (Ex.login "bob" "secret")
           (set_flags {[ 2%positive := Data.mk "user-login" 0 "" ]} Ex.db)
           (Obj (Some 2%positive) (Data.mk "user-login" 0 "")));
    vm_compute; reflexivity.
Defined.

(** X9 at work: Bob has no key for the second step, so that no code
    lets him pass it. *)
Lemma login_oath_refusals_witness :
  login_oath Ex.hashpw Ex.get_totp Ex.env (PInt 0) (Ex.login "bob" "secret")
    Ex.db
  = (UserError [INVALID_LOGIN],
     (login_password Ex.hashpw Ex.env false (Ex.login "bob" "secret")
        Ex.db).2).
Proof.
  apply (proj1 (proj2 (proj2
           (login_oath_refusals Ex.hashpw Ex.get_totp Ex.env (PInt 0)
              (Ex.login "bob" "secret") Ex.db Ex.bob_self
              (login_password Ex.hashpw Ex.env false
                 (Ex.login "bob" "secret") Ex.db).2
              ltac:(vm_compute; reflexivity))))).
  vm_compute. reflexivity.
Defined.

(** X10 at work: Bob, with a key for the second step, passes it with the
    code of the half-minute. *)
Lemma login_oath_accepts_witness :
  let db := (generate_oath Ex.b32encode Ex.env Ex.bob_self Ex.db).2 in
  ∃ code u2 db2,
    login_oath Ex.hashpw Ex.get_totp Ex.env_later (PInt code)
      (Ex.login "bob" "secret") db
    = (Ok (Obj (Some 1%positive) u2), db2)
    ∧ users db2 = <[1%positive := u2]> (users db).
Proof.
  intros db.
  destruct (qs_get (is_oath_method Ex.bob_self) (methods db))
    as [method_object|errs|e] eqn:Hget;
    [|vm_compute in Hget; discriminate..].
  destruct (login_oath_accepts Ex.hashpw Ex.get_totp Ex.env_later
              (Ex.login "bob" "secret") db Ex.bob_self
              (login_password Ex.hashpw Ex.env_later false
                 (Ex.login "bob" "secret") db).2
              method_object ltac:(vm_compute; reflexivity) Hget)
    as (ku & ko & u2 & db2 & Hlogin & Hku & _ & _ & Hus & _).
  injection Hku as <-.
  eexists _, u2, db2. split; [exact Hlogin|exact Hus].
Defined.

(** X11 at work: Alice registers with the invitation and logs in, with
    her name in capitals. *)
Lemma create_then_login_witness :
  ∃ u db2,
    login_password Ex.hashpw Ex.env_later true (Ex.login "ALICE" "pw")
      (create Ex.any Ex.any Ex.any Ex.any Ex.any Ex.hashpw Ex.sha1_hexdigest
         Ex.env (Ex.registration "alice" "alice@example.org" "pw" "invite")
         Ex.db).2
    = (Ok u, db2)
    ∧ Users.username (fields u) = "alice".
Proof.
  destruct (proj1 (create_then_login Ex.any Ex.any Ex.any Ex.any Ex.any
                     Ex.hashpw Ex.sha1_hexdigest Ex.env
                     (Ex.registration "alice" "alice@example.org" "pw"
                        "invite")
                     Ex.db
                     (Obj (Some 1%positive) (Data.mk "new-users" 0 "token"))
                     true "alice" "alice@example.org" "pw"
                     (Some (Obj (Some 1%positive) Ex.invite))
                     Ex.env_later true (Ex.login "ALICE" "pw")
                     (Obj (Some 2%positive) (Data.mk "user-login" 1 ""))
                     "ALICE" "pw"
                     ltac:(vm_compute; reflexivity)
                     ltac:(vm_compute; reflexivity)
                     ltac:(vm_compute; reflexivity)
                     ltac:(vm_compute; reflexivity)
                     ltac:(vm_compute; reflexivity)
                     ltac:(vm_compute; reflexivity)
                     ltac:(vm_compute; reflexivity)
                     ltac:(vm_compute; reflexivity)
                     ltac:(split; [reflexivity|exists "invite"; vm_compute;
                                   repeat split; reflexivity])
                     ltac:(reflexivity)
                     ex_db_methods_have_users
                     ltac:(vm_compute; reflexivity)
                     ltac:(vm_compute; discriminate)
                     ltac:(vm_compute; reflexivity)
                     ltac:(vm_compute; reflexivity)
                     ltac:(vm_compute; reflexivity)
                     ltac:(vm_compute; reflexivity))
              ltac:(vm_compute; reflexivity))
    as (u & db2 & Hlogin & _ & Hname).
  exists u, db2. split; assumption.
Defined.


(** X13 at work: Bob's validation token works once. *)
Lemma validate_single_use_witness :
  let db1 := (validate Ex.any Ex.env Ex.bob_self (PStr "val456") Ex.db).2 in
  validate Ex.any Ex.env_later Ex.bob_self (PStr "val456") db1
  = (UserError ["invalid-token"], db1).
Proof.
  apply (validate_single_use Ex.any Ex.env Ex.bob_self 1%positive "val456"
           Ex.db (Obj (Some 3%positive) Ex.bob_validation) Ex.env_later
           Ex.bob_self);
    first [ by vm_compute | vm_compute; discriminate ].
Defined.

(** X14 at work: no token at all. *)
Lemma validate_bad_token_witness :
  validate Ex.any Ex.env Ex.bob_self PNone Ex.db
  = (UserError ["token-required"], Ex.db).
Proof.
  apply (proj1 (validate_bad_token Ex.any Ex.env Ex.bob_self 1%positive
                  PNone Ex.db eq_refl)).
  reflexivity.
Defined.

(** X15 at work: a user that was never saved cannot be deactivated. *)
Lemma unsaved_user_is_refused_witness :
  ∃ msg,
    deactivate Ex.env (Obj None Ex.bob) Ex.db
    = (Raise (RuntimeError msg), Ex.db).
Proof.
  apply (proj1 (proj2 (unsaved_user_is_refused Ex.any Ex.any Ex.any Ex.any
                         Ex.any Ex.hashpw Ex.sha1_hexdigest Ex.b32encode
                         Ex.strip Ex.env (Obj None Ex.bob) Ex.db eq_refl))).
Defined.

(** X16 at work: Bob asks for a recovery token at time 100 and logs in
    with it at time 200. *)
Lemma recover_then_login_recovery_witness :
  ∃ u db2,
    login_recovery Ex.any Ex.env_later
      (Ex.recovery "bob"
         (Ex.sha1_hexdigest ("bob@example.org" +:+ "AAAAAAAAAA")))
      (recover Ex.sha1_hexdigest Ex.env Ex.bob_self Ex.db).2
    = (Ok u, db2)
    ∧ pk u = Some 1%positive.
Proof.
  destruct (proj1 (recover_then_login_recovery Ex.any Ex.sha1_hexdigest
                     Ex.env Ex.bob_self 1%positive Ex.db Ex.env_later
                     (Ex.recovery "bob"
                        (Ex.sha1_hexdigest
                           ("bob@example.org" +:+ "AAAAAAAAAA")))
                     "bob" Ex.bob_self
                     ltac:(reflexivity)
                     ltac:(vm_compute; reflexivity)
                     ltac:(vm_compute; reflexivity)
                     ltac:(vm_compute; reflexivity)
                     ltac:(vm_compute; reflexivity)
                     ltac:(reflexivity))
              ltac:(vm_compute; discriminate))
    as (u & db2 & Hlogin & Hpk & _).
  exists u, db2. split; assumption.
Defined.

(** X17 at work: Bob gets a key for the second step and passes the step
    with the code of the key. *)
Lemma generate_oath_then_login_witness :
  (generate_oath Ex.b32encode Ex.env Ex.bob_self Ex.db).1
    = Ok (Ex.b32encode "AAAAAAAAAA")
  ∧ ∃ u2 db2,
      login_oath Ex.hashpw Ex.get_totp Ex.env_later
        (PInt (Ex.get_totp (Ex.b32encode "AAAAAAAAAA") 200))
        (Ex.login "bob" "secret")
        (generate_oath Ex.b32encode Ex.env Ex.bob_self Ex.db).2
      = (Ok (Obj (Some 1%positive) u2), db2)
      ∧ Users.last_access u2 = Some 200.
Proof.
  destruct (generate_oath_then_login Ex.hashpw Ex.b32encode Ex.get_totp
              Ex.env Ex.bob_self 1%positive Ex.db Ex.env_later
              (Ex.login "bob" "secret") Ex.bob_self
              (login_password Ex.hashpw Ex.env_later false
                 (Ex.login "bob" "secret")
                 (generate_oath Ex.b32encode Ex.env Ex.bob_self Ex.db).2).2
              ltac:(reflexivity) ltac:(vm_compute; reflexivity)
              ltac:(reflexivity))
    as (Hkey & u2 & db2 & Hlogin & Haccess & _).
  split; [exact Hkey|]. exists u2, db2. split; assumption.
Defined.

(** X18 at work: Bob changes his password and logs in with the new
    one. *)
Lemma modify_password_then_login_witness :
  ∃ u db2,
    login_password Ex.hashpw Ex.env_later false (Ex.login "bob" "fresh")
      (modify_password Ex.any Ex.hashpw Ex.strip Ex.env Ex.bob_self
         (PStr "fresh") true (PStr "secret") Ex.db).2
    = (Ok u, db2)
    ∧ pk u = Some 1%positive.
Proof.
  destruct (modify_password_then_login Ex.any Ex.hashpw Ex.strip Ex.env
              Ex.bob_self 1%positive "fresh" true (PStr "secret") Ex.db
              (Obj (Some 1%positive) Ex.bob_password) Ex.env_later false
              (Ex.login "bob" "fresh")
              (Obj (Some 2%positive) (Data.mk "user-login" 1 "")) "bob"
              Ex.bob_self
              ltac:(reflexivity) ltac:(discriminate) ltac:(reflexivity)
              ltac:(vm_compute; reflexivity)
              ltac:(intros _; exists "secret";
                    split; [reflexivity|
                    split; [discriminate|vm_compute; reflexivity]])
              ltac:(vm_compute; reflexivity)
              ltac:(vm_compute; discriminate)
              ltac:(vm_compute; reflexivity)
              ltac:(vm_compute; reflexivity)
              ltac:(vm_compute; reflexivity)
              ltac:(vm_compute; reflexivity)
              ltac:(reflexivity) ltac:(reflexivity)
              ltac:(vm_compute; reflexivity)
              ltac:(vm_compute; reflexivity))
    as (_ & u & db2 & Hlogin & Hpk).
  exists u, db2. split; assumption.
Defined.

(** X19 at work: a wrong old password. *)
Lemma modify_password_refusals_witness :
  modify_password Ex.any Ex.hashpw Ex.strip Ex.env Ex.bob_self (PStr "fresh")
    true (PStr "wrong") Ex.db
  = (UserError ["invalid-old-password"], Ex.db).
Proof.
  apply (proj1 (modify_password_refusals Ex.any Ex.hashpw Ex.strip Ex.env
                  Ex.bob_self 1%positive "fresh" Ex.db
                  (Obj (Some 1%positive) Ex.bob_password)
                  ltac:(reflexivity) ltac:(discriminate) ltac:(reflexivity)
                  ltac:(vm_compute; reflexivity)));
    [discriminate|vm_compute; discriminate].
Defined.

(** X20 at work: after his deactivation Bob cannot be given a
    password, also without the check of the old one. *)
Lemma deactivate_then_modify_password_witness :
  let db1 := (deactivate Ex.env Ex.bob_self Ex.db).2 in
  modify_password Ex.any Ex.hashpw Ex.strip Ex.env_later Ex.bob_self
    (PStr "fresh") false PNone db1
  = (Raise DoesNotExist, db1).
Proof.
  apply (deactivate_then_modify_password Ex.any Ex.hashpw Ex.strip Ex.env
           Ex.bob_self 1%positive Ex.db Ex.env_later Ex.bob_self
           (PStr "fresh") false PNone);
    reflexivity.
Defined.


(** X22 at work: Bob is made an administrator. *)
Lemma set_admin_admins_witness :
  is_Some (admins (set_admin Ex.env Ex.bob_self Ex.db).2 !! 1%positive)
  ∧ admins Ex.db !! 1%positive = None.
Proof.
  split; [|vm_compute; reflexivity].
  apply (proj1 (set_admin_admins Ex.env Ex.bob_self 1%positive Ex.db
                  eq_refl)).
Defined.

(** X23 at work: Bob is deleted. *)
Lemma delete_user_cascade_witness :
  ∃ db1,
    delete_user Ex.bob_self Ex.db = (Ok (), db1)
    ∧ users db1 !! 1%positive = None
    ∧ methods_have_users db1.
Proof.
  destruct (delete_user_cascade Ex.bob_self 1%positive Ex.db eq_refl)
    as (db1 & Hdelete & Hgone & _ & _ & _ & _ & Hinv).
  exists db1. repeat split; [exact Hdelete|exact Hgone|].
  exact (Hinv ex_db_methods_have_users).
Defined.

(** X24 at work: the name of Bob stays taken when he is deactivated,
    and is free when he is deleted. *)
Lemma deactivate_keeps_name_witness :
  (user_exists "BOB" (deactivate Ex.env Ex.bob_self Ex.db).2).1 = Ok true
  ∧ (user_exists "BOB" (delete_user Ex.bob_self Ex.db).2).1 = Ok false.
Proof.
  apply (deactivate_keeps_name Ex.env Ex.bob_self 1%positive "BOB" Ex.db
           Ex.bob_self);
    vm_compute; reflexivity.
Defined.

